(** * CyberGuard: the FAQ retriever, the intent classifier and the
      conversation orchestrator of the cybersecurity-awareness agent

    The development follows the three Python modules of the agent:
    [faq_agent] (src/app/agent/faq_agent.py), [database]
    (src/app/agent/database.py) and [orchestrator]
    (src/app/agent/orchestrator.py).

    Conventions.
    - A Python [str] is a [string] holding its UTF-8 bytes.  UTF-8 is
      self-synchronising, so [k in t] and [t.replace(old, new)] on code
      points coincide with the byte-level [contains] and [replace] below.
    - A Python [float] that is finite is the rational it denotes; a float
      literal of the source is the exact value of its binary64 rounding.
      Cosine similarities are finite, so no NaN is ever compared.
    - The builtins [str.lower] and [str.strip] depend on the Unicode tables
      of the interpreter and are a parameter ([StrOps]); [ascii_ops] is
      their restriction to ASCII text.
    - Effects (SQLite writes, the global random generator, calls of the
      fitted vectorizer) are threaded through an explicit [World]. *)

From Stdlib Require Import QArith Ascii.
From stdpp Require Import gmap strings list sorting.
Close Scope Q_scope.

(** ** Python builtins used by the agent *)

Module py.

Definition LF : string := String "010"%char "".

(** [needle in haystack] on strings. *)
Fixpoint contains (needle haystack : string) : bool :=
  String.prefix needle haystack ||
  match haystack with
  | EmptyString => false
  | String _ rest => contains needle rest
  end.

(** [any(k in t for k in keywords)] *)
Definition any_in (keywords : list string) (t : string) : bool :=
  existsb (λ k, contains k t) keywords.

(** [s.replace(old, new)] for a non-empty [old]: leftmost non-overlapping
    occurrences.  [skip] counts the bytes of a match still to be dropped. *)
Fixpoint replace_go (old new s : string) (skip : nat) : string :=
  match s with
  | EmptyString => EmptyString
  | String c rest =>
      match skip with
      | S k => replace_go old new rest k
      | O =>
          if String.prefix old s
          then new +:+ replace_go old new rest (String.length old - 1)
          else String c (replace_go old new rest 0)
      end
  end.

Definition replace (old new s : string) : string := replace_go old new s 0.

(** [l[:k]] for a Python int [k]: a negative stop counts from the end. *)
Definition slice_to {A} (k : Z) (l : list A) : list A :=
  if (0 <=? k)%Z then take (Z.to_nat k) l
  else take (length l - Z.to_nat (- k)) l.

(** The builtins that consult the Unicode database. *)
Record StrOps := {
  lower : string → string;   (* str.lower *)
  strip : string → string;   (* str.strip, no argument *)
}.

(** Their behaviour on ASCII text. *)
Definition ascii_lower_char (c : ascii) : ascii :=
  let n := Ascii.N_of_ascii c in
  if ((65 <=? n) && (n <=? 90))%N then Ascii.ascii_of_N (n + 32) else c.

Fixpoint ascii_lower (s : string) : string :=
  match s with
  | EmptyString => EmptyString
  | String c rest => String (ascii_lower_char c) (ascii_lower rest)
  end.

Definition ascii_space (c : ascii) : bool :=
  let n := Ascii.N_of_ascii c in
  ((9 <=? n) && (n <=? 13) || (28 <=? n) && (n <=? 32))%N.

Fixpoint lstrip (s : string) : string :=
  match s with
  | EmptyString => EmptyString
  | String c rest => if ascii_space c then lstrip rest else s
  end.

Definition ascii_strip (s : string) : string :=
  String.rev (lstrip (String.rev (lstrip s))).

Definition ascii_ops : StrOps := {| lower := ascii_lower; strip := ascii_strip |}.

(** Truthiness of [not query or not query.strip()]. *)
Definition blank (ops : StrOps) (query : string) : bool :=
  (query =? "")%string || (strip ops query =? "")%string.

End py.

(** ** Float literals of the source *)

Module lit.
(** 0.10, 0.15 and 0.3 as IEEE binary64 values. *)
Definition f0_10 : Q := (3602879701896397 # 36028797018963968)%Q.
Definition f0_15 : Q := (5404319552844595 # 36028797018963968)%Q.
Definition f0_3  : Q := (5404319552844595 # 18014398509481984)%Q.
Definition f0_0  : Q := 0%Q.
Definition f1_0  : Q := 1%Q.
End lit.

(** ** database.py *)

Module database.

(** Rows of the three tables, without the [id] and [timestamp] columns
    that SQLite fills in. *)
Record conversation_row := {
  conv_user_id : string;
  conv_user_message : string;
  conv_agent_response : string;
  conv_intent : string;
}.

Record incident_row := {
  inc_user_id : string;
  inc_intent : string;
  inc_severity : string;
  inc_details : string;
  inc_status : string;
}.

Record metric_row := {
  metric_name : string;
  metric_value : Z;
  metric_intent : string;
}.

Record ConversationDB := {
  conversations : list conversation_row;
  incidents : list incident_row;
  metrics : list metric_row;
}.

Definition save_conversation (user_id user_msg agent_response intent : string)
    (db : ConversationDB) : ConversationDB :=
  {| conversations := conversations db ++
       [ {| conv_user_id := user_id; conv_user_message := user_msg;
            conv_agent_response := agent_response; conv_intent := intent |} ];
     incidents := incidents db;
     metrics := metrics db |}.

Definition save_incident (user_id intent severity details : string)
    (db : ConversationDB) : ConversationDB :=
  {| conversations := conversations db;
     incidents := incidents db ++
       [ {| inc_user_id := user_id; inc_intent := intent;
            inc_severity := severity; inc_details := details;
            inc_status := "open" |} ];
     metrics := metrics db |}.

Definition increment_metric (name intent : string)
    (db : ConversationDB) : ConversationDB :=
  {| conversations := conversations db;
     incidents := incidents db;
     metrics := metrics db ++
       [ {| metric_name := name; metric_value := 1; metric_intent := intent |} ] |}.

(** [get_metrics_summary].  The dict key of a group is
    [f"{metric_name}_{intent}" if intent else metric_name]. *)
Definition summary_key (name intent : string) : string :=
  if (intent =? "")%string then name else name +:+ "_" +:+ intent.

Definition metric_group (r : metric_row) : string * string :=
  (metric_name r, metric_intent r).

(** [COUNT( * )] of one group. *)
Definition count_group (g : string * string) (rows : list metric_row) : nat :=
  length (filter (λ r, metric_group r = g) rows).

(** [SELECT metric_name, intent, COUNT( * ) ... GROUP BY metric_name, intent]:
    one row per distinct pair.  SQL leaves the order of the groups open. *)
Definition grouped (rows : list metric_row) : list (string * string * nat) :=
  (λ g, (g.1, g.2, count_group g rows)) <$> remove_dups (metric_group <$> rows).

Definition get_metrics_summary (db : ConversationDB) : gmap string nat :=
  foldl (λ result '(name, intent, count), <[ summary_key name intent := count ]> result)
    ∅ (grouped (metrics db)).

End database.

(** ** The world the agent runs in *)

Record World := {
  db : database.ConversationDB;   (* the SQLite file behind [self.db] *)
  entropy : nat → nat;            (* draws still to come from [random] *)
  transformed : list string;      (* queries given to [vectorizer.transform] *)
}.

Definition M (A : Type) : Type := World → A * World.

Definition ret {A} (a : A) : M A := λ w, (a, w).

Definition bind {A B} (c : M A) (k : A → M B) : M B :=
  λ w, let (a, w') := c w in k a w'.

Notation "'let*' x ':=' c 'in' k" := (bind c (λ x, k))
  (at level 10, x pattern, c at level 100, k at level 200).

Definition on_db (f : database.ConversationDB → database.ConversationDB) : M unit :=
  λ w, (tt, {| db := f (db w); entropy := entropy w; transformed := transformed w |}).

(** [random.choice(seq)] on a non-empty sequence [x :: rest]. *)
Definition random_choice {A} (x : A) (rest : list A) : M A :=
  λ w, (nth (entropy w 0 `mod` S (length rest)) (x :: rest) x,
        {| db := db w; entropy := λ i, entropy w (S i);
           transformed := transformed w |}).

(** ** faq_agent.py *)

Module faq_agent.
Import py.

(** A YAML mapping with string values: an FAQ entry, a DataFrame row. *)
Abbreviation Row := (gmap string string).

(** [row.get(key, "")] *)
Definition get (row : Row) (key : string) : string := default "" (row !! key).

(** The state left by [__init__].  Fitting the vectorizer on an empty
    corpus raises, so a constructed agent has a first entry.  [cosine q i]
    is [cosine_similarity(vectorizer.transform([q]), matrix)[0][i]], the
    similarity of the query to the i-th corpus document under the fitted
    TF-IDF model of scikit-learn. *)
Record CyberFAQAgent := {
  faq_head : Row;
  faq_tail : list Row;
  tips : list string;
  min_similarity : Q;
  cosine : string → nat → Q;
}.

Definition faq (self : CyberFAQAgent) : list Row := faq_head self :: faq_tail self.

(** [self.vectorizer.transform([query])]: the vector is determined by the
    query; the call is recorded in the world. *)
Definition transform (query : string) : M string :=
  λ w, (query, {| db := db w; entropy := entropy w;
                  transformed := transformed w ++ [query] |}).

(** [cosine_similarity(vec, self.matrix)[0]]: one score per entry. *)
Definition cosine_similarity (self : CyberFAQAgent) (vec : string) : list Q :=
  map (cosine self vec) (seq 0 (length (faq self))).

(** [sims[i]] and [self.df.iloc[i].to_dict()]; both are only used with an
    index that [argmax] or [argsort] returned, which is in range.  The
    DataFrame row is the YAML entry itself when all entries carry the same
    keys; pandas fills a key that an entry lacks and another one has with
    NaN, which a [Row] cannot hold: statements about the content of a row
    are made for knowledge bases with uniform keys. *)
Definition at_index (sims : list Q) (i : nat) : Q := nth i sims 0%Q.
Definition iloc (self : CyberFAQAgent) (i : nat) : Row := nth i (faq self) (faq_head self).

(** [sims.argmax()]: the first index holding the maximum. *)
Fixpoint argmax_from (best_i : nat) (best : Q) (i : nat) (l : list Q) : nat :=
  match l with
  | [] => best_i
  | x :: rest =>
      if Qle_bool x best then argmax_from best_i best (S i) rest
      else argmax_from i x (S i) rest
  end.

Definition argmax (sims : list Q) : nat :=
  match sims with
  | [] => 0
  | x :: rest => argmax_from 0 x 1 rest
  end.

(** [sims.argsort()]: the indices in ascending order of score.  NumPy leaves
    the order of equal scores open, and so does every statement below:
    none depends on where this sort puts them. *)
Definition score_le (sims : list Q) (i j : nat) : Prop :=
  (at_index sims i <= at_index sims j)%Q.

#[global] Instance score_le_dec sims : RelDecision (score_le sims) :=
  λ i j, match Qlt_le_dec (at_index sims j) (at_index sims i) with
         | left H => right (Qlt_not_le _ _ H)
         | right H => left H
         end.

Definition argsort (sims : list Q) : list nat :=
  merge_sort (score_le sims) (seq 0 (length sims)).

Definition blank_prompt : string :=
  "Veuillez poser une question liée à la cybersécurité.".

Definition fallback : string :=
  "Je n'ai pas une réponse précise pour cette question. " +:+
  "Voici quelques conseils généraux : évitez de cliquer sur des liens " +:+
  "suspects, utilisez des mots de passe robustes (12+ caractères), " +:+
  "activez la MFA partout où c'est possible. " +:+
  "Pour les incidents ou questions spécifiques, contactez l'équipe cybersécurité.".

Definition answer (ops : StrOps) (self : CyberFAQAgent) (query : string)
    : M (string * Q * Row) :=
  if blank ops query then ret (blank_prompt, lit.f0_0, ∅)
  else
    let* vec := transform query in
    let sims := cosine_similarity self vec in
    let best_idx := argmax sims in
    let best_score := at_index sims best_idx in
    let best_row := iloc self best_idx in
    if Qle_bool (min_similarity self) best_score then
      ret (get best_row "answer", best_score, best_row)
    else
      ret (fallback, best_score, ∅).

Definition tip (self : CyberFAQAgent) : M string :=
  match tips self with
  | [] =>
      ret "Astuce: Activez l'authentification multifacteur et ne réutilisez pas vos mots de passe."
  | t :: rest => random_choice t rest
  end.

(** The loop [for i in idxs: ... results.append(...)] of [search]. *)
Fixpoint collect (self : CyberFAQAgent) (sims : list Q) (idxs : list nat)
    : list (Row * Q) :=
  match idxs with
  | [] => []
  | i :: rest =>
      let score := at_index sims i in
      if Qle_bool lit.f0_10 score
      then (iloc self i, score) :: collect self sims rest
      else collect self sims rest
  end.

Definition search (ops : StrOps) (self : CyberFAQAgent) (query : string)
    (top_k : Z) : M (list (Row * Q)) :=
  if blank ops query then ret []
  else
    let* vec := transform query in
    let sims := cosine_similarity self vec in
    let idxs := slice_to top_k (reverse (argsort sims)) in
    ret (collect self sims idxs).

End faq_agent.

(** ** orchestrator.py *)

Module orchestrator.
Import py.

(** Values a caller may keep in the session mapping. *)
Inductive value :=
  | VNone
  | VBool (b : bool)
  | VInt (z : Z)
  | VStr (s : string).

Abbreviation Session := (gmap string value).

(** First component of a suggestion as the code builds it: a string in
    some branches, a one-key mapping in others. *)
Inductive label :=
  | LStr (s : string)
  | LDict (d : faq_agent.Row).

Record AgentResponse := {
  message : string;
  steps : list string;
  suggestions : list (label * Q);
  tip : string;
  follow_up : string;
  intent : string;
}.

(** One entry of the [guidance] section of the knowledge base; a key the
    YAML mapping lacks is [None]. *)
Record GuidanceBlock := {
  why : option string;
  best_practices : option (list string);
  common_mistakes : option (list string);
}.

(** The state left by [__init__]; [self.db] lives in the [World]. *)
Record CyberOrchestrator := {
  faq : faq_agent.CyberFAQAgent;
  guidance : gmap string GuidanceBlock;
}.

Definition save_conversation (user_id user_msg agent_response intent : string) : M unit :=
  on_db (database.save_conversation user_id user_msg agent_response intent).

Definition increment_metric (name intent : string) : M unit :=
  on_db (database.increment_metric name intent).

Definition greeting_keywords : list string :=
  ["bonjour"; "salut"; "bonsoir"; "hello"; "hi"; "hey"; "coucou"].

(** The dict literal of [detect_intent], in insertion order. *)
Definition intent_keywords : list (string * list string) :=
  [ ("phishing_incident",
      ["phishing"; "hameçonnage"; "hameconnage"; "email suspect";
       "mail suspect"; "lien suspect"; "lien douteux"; "ai clique";
       "j ai clique"; "clique sur"; "piege"; "arnaque"; "scam";
       "frauduleux"; "usurpation"; "recu un mail"; "email bizarre";
       "suspect"; "douteux"; "etrange"]);
    ("password_security",
      ["mot de passe"; "password"; "mdp"; "gestionnaire"; "complexe";
       "securise"; "robuste"; "fort"; "faible"; "creer un mot";
       "changer mot"; "oublie mot"; "reset password"; "perdu mot";
       "bloque"; "verrouille"; "probleme mot"; "compte bloque"]);
    ("mfa",
      ["mfa"; "2fa"; "authentification"; "double authentification";
       "multifacteur"; "code"; "verification"; "token"; "otp";
       "deux facteurs"; "validation"]);
    ("vpn",
      ["vpn"; "reseau"; "a distance"; "remote"; "connexion";
       "distant"; "tunnel"; "wifi public"; "reseau public";
       "travail distance"; "teletravail"]);
    ("updates",
      ["mise a jour"; "maj"; "patch"; "correctif"; "update";
       "installer"; "mettre a jour"; "version"; "upgrade"]);
    ("data_sensitivity",
      ["donnees sensibles"; "donnees"; "rgpd"; "confidentiel";
       "partage"; "fichier"; "document"; "transfert"; "sensitive";
       "partager fichier"; "envoyer fichier"; "donnee"]);
    ("incident_reporting",
      ["incident"; "signaler"; "securite"; "compromis"; "support";
       "alerte"; "probleme"; "attaque"; "breach"; "violation";
       "contacter"; "aide"; "urgence"]) ].

(** The first two statements of [detect_intent]. *)
Definition normalize (ops : StrOps) (text : string) : string :=
  let t := lower ops text in
  replace "ê" "e" (replace "è" "e" (replace "é" "e"
    (replace "-" " " (replace "'" " " t)))).

(** [for intent, keywords in intent_keywords.items(): ...] and the final
    [return "general"]. *)
Fixpoint scan (items : list (string * list string)) (t : string) : string :=
  match items with
  | [] => "general"
  | (intent, keywords) :: rest =>
      if any_in keywords t then intent else scan rest t
  end.

Definition detect_intent (ops : StrOps) (text : string) : string :=
  let t := normalize ops text in
  if any_in greeting_keywords t then "greeting"
  else scan intent_keywords t.

Definition _generic_steps (intent : string) : list string :=
  let mapping : gmap string (list string) := list_to_map
    [ ("password_security",
        ["Utilisez un gestionnaire de mots de passe fourni par l'organisation.";
         "Créez un mot de passe d'au moins 12 caractères mélangeant majuscules, minuscules, chiffres et symboles.";
         "Activez la MFA sur tous vos comptes critiques.";
         "Ne réutilisez jamais le même mot de passe."]);
      ("mfa",
        ["Préférez les applications d'authentification (Google Authenticator, Microsoft Authenticator) aux SMS.";
         "Gardez des codes de secours dans un coffre sécurisé.";
         "Activez la MFA sur tous les comptes qui le permettent."]);
      ("vpn",
        ["Téléchargez le client VPN depuis le portail IT de votre organisation.";
         "Activez le VPN avant d'accéder à toute ressource interne.";
         "Utilisez toujours le VPN sur les réseaux publics ou non fiables.";
         "Fermez la session VPN après usage."]);
      ("updates",
        ["Appliquez les patchs critiques dans les 48 heures.";
         "Installez les patchs normaux dans les 2 semaines.";
         "Redémarrez l'appareil après un patch critique.";
         "Vérifiez que la mise à jour s'est bien appliquée."]);
      ("data_sensitivity",
        ["Utilisez uniquement les outils homologués pour partager des fichiers sensibles.";
         "Chiffrez les données en transit (HTTPS/TLS) et au repos.";
         "Limitez l'accès aux personnes vraiment autorisées.";
         "Appliquez le principe du moindre privilège."]);
      ("incident_reporting",
        ["Collectez les éléments (logs, captures, emails) sans les altérer.";
         "Contactez immédiatement l'équipe sécurité (ne pas attendre).";
         "Créez un ticket dans le système GRC si disponible.";
         "Notifiez votre manager de la situation."]);
      ("general",
        ["Vérifiez toujours l'expéditeur des emails.";
         "Utilisez des mots de passe robustes et uniques.";
         "Activez la MFA partout où c'est possible.";
         "En cas de doute, contactez l'équipe sécurité."]) ] in
  default (mapping !!! "general") (mapping !! intent).

(** [not g] for the looked-up block: missing, or a mapping without keys. *)
Definition falsy (g : option GuidanceBlock) : bool :=
  match g with
  | None => true
  | Some b =>
      match why b, best_practices b, common_mistakes b with
      | None, None, None => true
      | _, _, _ => false
      end
  end.

Definition _enrich_md (self : CyberOrchestrator) (intent : string) : string :=
  let g := guidance self !! intent in
  if falsy g then ""
  else
    let output := LF +:+ LF +:+ "**Contexte :** " +:+ default "" (g ≫= why) in
    let best := default [] (g ≫= best_practices) in
    let output :=
      match best with
      | [] => output
      | _ => foldl (λ out bp, out +:+ "• " +:+ bp +:+ LF)
               (output +:+ LF +:+ LF +:+ "**Bonnes pratiques :**" +:+ LF) best
      end in
    let mistakes := default [] (g ≫= common_mistakes) in
    match mistakes with
    | [] => output
    | _ => foldl (λ out m, out +:+ "⚠️ " +:+ m +:+ LF)
             (output +:+ LF +:+ "**Erreurs courantes :**" +:+ LF) mistakes
    end.

(** [pending == "phishing_followup"] for [pending = session.get("pending_flow")]. *)
Definition is_phishing_followup (pending : option value) : bool :=
  match pending with
  | Some (VStr s) => (s =? "phishing_followup")%string
  | _ => false
  end.

(** [[(q.get("question", ""), s) for (q, s) in found]] *)
Definition as_suggestions (found : list (faq_agent.Row * Q)) : list (label * Q) :=
  map (λ '(q, s), (LStr (faq_agent.get q "question"), s)) found.

Definition _handle_phishing_followup (ops : StrOps) (self : CyberOrchestrator)
    (user_text : string) (session : Session) (user_id : string)
    : M (AgentResponse * Session) :=
  let t := lower ops user_text in
  let session := delete "pending_flow" session in
  let '(msg, steps) :=
    if contains "oui" t || contains "identifiant" t || contains "mot de passe" t
    then
      ("Action immédiate requise :" +:+ LF +:+
       "1. Changez tous vos mots de passe immédiatement" +:+ LF +:+
       "2. Activez la MFA sur tous vos comptes" +:+ LF +:+
       "3. Contactez l'équipe sécurité : security@company.com" +:+ LF +:+
       "4. Surveillez vos comptes pour toute activité suspecte",
       ["Changez vos mots de passe maintenant";
        "Activez la MFA partout";
        "Contactez security@company.com";
        "Surveillez vos comptes"])
    else
      ("Bien. Voici ce qu'il faut faire :" +:+ LF +:+
       "1. Ne réutilisez plus cet email" +:+ LF +:+
       "2. Signalez-le à votre équipe IT" +:+ LF +:+
       "3. Supprimez l'email" +:+ LF +:+
       "4. Restez vigilant pour les prochains emails",
       ["Signalez l'email à l'équipe IT";
        "Supprimez l'email sans y répondre";
        "Restez vigilant"]) in
  let* tip := faq_agent.tip (faq self) in
  let suggestions := [] in
  let* _ := save_conversation user_id user_text msg "phishing_followup" in
  ret ({| message := msg; steps := steps; suggestions := suggestions;
          tip := tip; follow_up := ""; intent := "phishing_followup" |},
       session).

Definition respond (ops : StrOps) (self : CyberOrchestrator)
    (user_text : string) (session : Session) (user_id : string)
    : M (AgentResponse * Session) :=
  let pending := session !! "pending_flow" in
  if is_phishing_followup pending then
    _handle_phishing_followup ops self user_text session user_id
  else
  let intent := detect_intent ops user_text in
  if (intent =? "greeting")%string then
    let msg :=
      "Bonjour ! Je suis CyberGuard, votre assistant en cybersécurité. " +:+
      "Je peux vous aider avec : le phishing, les mots de passe, la MFA, " +:+
      "le VPN, les mises à jour, la gestion des données sensibles, et le signalement d'incidents. " +:+
      "Comment puis-je vous aider ?" in
    let* tip := faq_agent.tip (faq self) in
    let* _ := save_conversation user_id user_text msg intent in
    let* _ := increment_metric "question_asked" intent in
    let suggestions :=
      [ (LDict {[ "question" := "🔐 Comment créer un mot de passe solide ?" ]}, lit.f1_0);
        (LDict {[ "question" := "🚨 Comment détecter un email suspect ?" ]}, lit.f1_0);
        (LDict {[ "question" := "🔑 Qu'est-ce que la MFA ?" ]}, lit.f1_0) ] in
    ret ({| message := msg; steps := []; suggestions := suggestions;
            tip := tip; follow_up := ""; intent := intent |}, session)
  else if (intent =? "phishing_incident")%string then
    let msg :=
      "Compris. Pour un potentiel hameçonnage, restons méthodiques. " +:+
      "Je vais vous guider étape par étape." in
    let steps :=
      [ "Ne cliquez plus dans l'email et n'ouvrez pas les pièces jointes.";
        "Si vous avez entré des identifiants, changez-les immédiatement et activez la MFA.";
        "Capturez les éléments (expéditeur, sujet, lien) et signalez l'email à la sécurité." ] in
    let* found := faq_agent.search ops (faq self) user_text 3 in
    let suggestions := as_suggestions found in
    let* tip := faq_agent.tip (faq self) in
    let session := <[ "pending_flow" := VStr "phishing_followup" ]> session in
    let follow_up :=
      "Avez-vous entré des identifiants ou téléchargé une pièce jointe après avoir cliqué ?" in
    let enriched := _enrich_md self intent in
    let msg := msg +:+ enriched in
    let* _ := save_conversation user_id user_text msg intent in
    let* _ := increment_metric "question_asked" intent in
    ret ({| message := msg; steps := steps; suggestions := suggestions;
            tip := tip; follow_up := follow_up; intent := intent |}, session)
  else
  let* (answer, score, meta) := faq_agent.answer ops (faq self) user_text in
  let* found := faq_agent.search ops (faq self) user_text 3 in
  let suggestions := as_suggestions found in
  let steps := _generic_steps intent in
  let* tip := faq_agent.tip (faq self) in
  if negb (Qle_bool lit.f0_15 score) &&
     ((intent =? "general")%string || (intent =? "incident_reporting")%string)
  then
    let msg :=
      "Je peux vous aider sur : phishing, mots de passe, MFA, VPN, mises à jour, données sensibles, " +:+
      "signalement d'incident. Pouvez-vous préciser votre problème ?" in
    let suggestions :=
      [ (LDict {[ "question" := "🚨 J'ai reçu un mail suspect" ]}, lit.f1_0);
        (LDict {[ "question" := "🔐 Mon mot de passe est bloqué" ]}, lit.f1_0);
        (LDict {[ "question" := "🔑 Activer la MFA" ]}, lit.f1_0);
        (LDict {[ "question" := "🛡️ Signaler un incident" ]}, lit.f1_0) ] in
    let* _ := save_conversation user_id user_text msg intent in
    let* _ := increment_metric "question_asked" intent in
    ret ({| message := msg; steps := []; suggestions := suggestions;
            tip := tip; follow_up := ""; intent := intent |}, session)
  else
  let msg :=
    if (intent =? "password_security")%string && negb (Qle_bool lit.f0_3 score) then
      let answer :=
        "Voyons ensemble pour votre mot de passe :" +:+ LF +:+
        "1) Essayez la fonction « Mot de passe oublié » du portail." +:+ LF +:+
        "2) Si votre compte est bloqué, attendez 15 minutes puis réessayez." +:+ LF +:+
        "3) Si ça ne marche pas, contactez le support IT pour un reset sécurisé." +:+ LF +:+
        "4) Une fois réinitialisé, définissez un mot de passe unique et activez la MFA." in
      answer +:+ _enrich_md self "password_security"
    else
      if Qle_bool lit.f0_3 score then answer +:+ _enrich_md self intent
      else answer +:+ _enrich_md self "general" in
  let* _ := save_conversation user_id user_text msg intent in
  let* _ := increment_metric "question_asked" intent in
  ret ({| message := msg; steps := steps; suggestions := suggestions;
          tip := tip; follow_up := ""; intent := intent |}, session).

End orchestrator.

(** ** A small knowledge base to run the agent on *)

Module demo.
Import py.

Definition entry_vpn : faq_agent.Row := list_to_map
  [ ("question", "Comment utiliser le VPN ?");
    ("answer", "Activez le client VPN avant toute connexion au reseau interne.");
    ("category", "vpn") ].

Definition entry_backup : faq_agent.Row := list_to_map
  [ ("question", "Pourquoi sauvegarder mon poste ?");
    ("answer", "Une sauvegarde reguliere limite la perte en cas de panne.");
    ("category", "sauvegarde") ].

(** Sample similarities: the query "vpn" shares a term with the first
    entry only; every other query used below shares none with the corpus,
    and a query without a known term has similarity 0.0 to every entry. *)
Definition cosine (query : string) (i : nat) : Q :=
  if (query =? "vpn")%string then
    match i with 0 => (1 # 2)%Q | _ => 0%Q end
  else 0%Q.

(** [CyberFAQAgent(kb_path=kb_path)]: [min_similarity] keeps its default. *)
Definition agent : faq_agent.CyberFAQAgent :=
  {| faq_agent.faq_head := entry_vpn;
     faq_agent.faq_tail := [entry_backup];
     faq_agent.tips := ["Verrouillez votre session."; "Mefiez-vous des pieces jointes."];
     faq_agent.min_similarity := lit.f0_15;
     faq_agent.cosine := cosine |}.

Definition guidance : gmap string orchestrator.GuidanceBlock := list_to_map
  [ ("general",
      {| orchestrator.why := Some "La vigilance de chacun protege tous.";
         orchestrator.best_practices := Some ["Signalez tout doute."];
         orchestrator.common_mistakes := Some [] |});
    ("password_security",
      {| orchestrator.why := Some "Un mot de passe vole ouvre tous vos comptes.";
         orchestrator.best_practices := None;
         orchestrator.common_mistakes := Some ["Reutiliser le meme mot de passe."] |}) ].

Definition bot : orchestrator.CyberOrchestrator :=
  {| orchestrator.faq := agent; orchestrator.guidance := guidance |}.

Definition w0 : World :=
  {| db := {| database.conversations := []; database.incidents := [];
              database.metrics := [] |};
     entropy := λ i, i;
     transformed := [] |}.

Definition idle : orchestrator.Session := {[ "lang" := orchestrator.VStr "fr" ]}.

Definition pending : orchestrator.Session :=
  <[ "pending_flow" := orchestrator.VStr "phishing_followup" ]> idle.

(** A database after three classified turns. *)
Definition logged : database.ConversationDB :=
  database.increment_metric "question_asked" "vpn"
    (database.increment_metric "question_asked" "mfa"
      (database.increment_metric "question_asked" "vpn" (db w0))).

End demo.

(** ** Vocabulary of the statements *)

(** Every entry of the knowledge base carries the same keys, so that the
    DataFrame built from the entries has no cell to fill in. *)
Definition uniform_keys (self : faq_agent.CyberFAQAgent) : Prop :=
  Forall (λ row, dom row =@{gset string} dom (faq_agent.faq_head self))
    (faq_agent.faq_tail self).

(** The i-th entry reaches the relevance floor of [search]. *)
Definition reaches (sims : list Q) (i : nat) : bool :=
  Qle_bool lit.f0_10 (faq_agent.at_index sims i).

(** The [conversations] row and the [metrics] row that log a response. *)
Definition turn (uid text : string) (resp : orchestrator.AgentResponse)
    : database.conversation_row :=
  {| database.conv_user_id := uid; database.conv_user_message := text;
     database.conv_agent_response := orchestrator.message resp;
     database.conv_intent := orchestrator.intent resp |}.

Definition question_asked (resp : orchestrator.AgentResponse) : database.metric_row :=
  {| database.metric_name := "question_asked"; database.metric_value := 1;
     database.metric_intent := orchestrator.intent resp |}.

(** The lines of one block of [_enrich_md], and the block with its header:
    nothing at all for an empty list. *)
Definition join_lines (mark : string) (items : list string) : string :=
  foldr (λ item rest, mark +:+ item +:+ py.LF +:+ rest) "" items.

Definition md_block (header mark : string) (items : list string) : string :=
  match items with
  | [] => ""
  | _ => header +:+ join_lines mark items
  end.

(** How many times a call of [respond] runs [vectorizer.transform]. *)
Definition vectorizer_calls (ops : py.StrOps) (text : string)
    (session : orchestrator.Session) : nat :=
  if orchestrator.is_phishing_followup (session !! "pending_flow") then 0
  else if (orchestrator.detect_intent ops text =? "greeting")%string then 0
  else if py.blank ops text then 0
  else if (orchestrator.detect_intent ops text =? "phishing_incident")%string then 1
  else 2.

(** * Properties *)

(** ** The retriever *)

Section retriever.
Import py faq_agent.

Variable ops : StrOps.
Variable self : CyberFAQAgent.

#[local] Instance score_le_total sims : Total (score_le sims).
Proof.
  intros i j. unfold score_le.
  destruct (Qlt_le_dec (at_index sims i) (at_index sims j)) as [H|H].
  - left. by apply Qlt_le_weak.
  - by right.
Qed.

#[local] Instance score_le_trans sims : Transitive (score_le sims).
Proof. intros i j k. unfold score_le. apply Qle_trans. Qed.

Lemma argsort_Permutation sims : argsort sims ≡ₚ seq 0 (length sims).
Proof. apply merge_sort_Permutation. Qed.

(** The indices that [answer] and [search] look up are in range, so that
    neither [sims[i]] nor [df.iloc[i]] can raise. *)
Lemma argmax_from_lt best_i best i l :
  best_i < i → argmax_from best_i best i l < i + length l.
Proof.
  revert best_i best i. induction l as [|x l IH]; intros best_i best i Hlt.
  - simpl. lia.
  - simpl. destruct (Qle_bool x best).
    + specialize (IH best_i best (S i)). lia.
    + specialize (IH i x (S i)). lia.
Qed.

Lemma argmax_in_range query :
  argmax (cosine_similarity self query) < length (faq self).
Proof.
  unfold cosine_similarity, faq. cbn [length seq map argmax].
  pose proof (argmax_from_lt 0 (cosine self query 0) 1
                (map (cosine self query) (seq 1 (length (faq_tail self)))))
    as Hlt.
  rewrite length_map, length_seq in Hlt. lia.
Qed.

Lemma ranking_in_range sims k i :
  i ∈ slice_to k (reverse (argsort sims)) → i < length sims.
Proof.
  intros Hi.
  assert (i ∈ reverse (argsort sims)) as Hin.
  { unfold slice_to in Hi.
    destruct (0 <=? k)%Z; eapply subseteq_take; exact Hi. }
  rewrite reverse_Permutation, argsort_Permutation in Hin.
  apply elem_of_seq in Hin. lia.
Qed.

(** Reversed, the ranking runs from the best score down. *)
Lemma ranking_descending sims :
  StronglySorted (flip (score_le sims)) (reverse (argsort sims)).
Proof.
  apply Sorted_StronglySorted; [apply _|].
  apply Sorted_reverse, Sorted_merge_sort; apply _.
Qed.

Lemma StronglySorted_take {A} (R : relation A) k l :
  StronglySorted R l → StronglySorted R (take k l).
Proof.
  intros H. rewrite <- (take_drop k l) in H.
  by apply StronglySorted_app_1_l in H.
Qed.

Lemma slice_to_descending sims k :
  StronglySorted (flip (score_le sims)) (slice_to k (reverse (argsort sims))).
Proof.
  unfold slice_to. destruct (0 <=? k)%Z;
    apply StronglySorted_take, ranking_descending.
Qed.

Lemma slice_to_length {A} (k : Z) (l : list A) :
  (0 ≤ k)%Z → length (slice_to k l) ≤ Z.to_nat k.
Proof.
  intros Hk. unfold slice_to.
  destruct (Z.leb_spec 0 k); [|lia]. rewrite length_take. lia.
Qed.

Lemma collect_scores sims idxs :
  (collect self sims idxs).*2 = at_index sims <$> List.filter (reaches sims) idxs.
Proof.
  induction idxs as [|i idxs IH]; [done|].
  cbn [collect List.filter]. unfold reaches at 1.
  destruct (Qle_bool _ _); [rewrite !fmap_cons|]; by rewrite IH.
Qed.

Lemma collect_length sims idxs :
  length (collect self sims idxs) = length (List.filter (reaches sims) idxs).
Proof.
  rewrite <- (length_fmap snd (collect self sims idxs)), collect_scores.
  by rewrite length_fmap.
Qed.

Lemma collect_floor sims idxs :
  Forall (λ r, (lit.f0_10 <= r.2)%Q) (collect self sims idxs).
Proof.
  induction idxs as [|i idxs IH]; simpl; [constructor|].
  destruct (Qle_bool _ _) eqn:E; [|done].
  constructor; [|done]. by apply Qle_bool_iff.
Qed.

Lemma collect_mono sims (P : Q → Prop) idxs :
  Forall (λ i, P (at_index sims i)) idxs →
  Forall (λ r, P r.2) (collect self sims idxs).
Proof.
  induction 1 as [|i idxs Hi _ IH]; simpl; [constructor|].
  destruct (Qle_bool _ _); [constructor|]; done.
Qed.

Lemma collect_descending sims idxs :
  StronglySorted (flip (score_le sims)) idxs →
  StronglySorted (λ r1 r2, (r2.2 <= r1.2)%Q) (collect self sims idxs).
Proof.
  induction 1 as [|i idxs _ IH Hi]; simpl; [constructor|].
  destruct (Qle_bool _ _); [|done].
  constructor; [done|].
  by apply (collect_mono sims (λ s, (s <= at_index sims i)%Q)).
Qed.

Lemma filter_length_Permutation {A} (f : A → bool) l1 l2 :
  l1 ≡ₚ l2 → length (List.filter f l1) = length (List.filter f l2).
Proof.
  induction 1 as [|x l1 l2 _ IH|x y l|l1 l2 l3 _ IH1 _ IH2]; simpl.
  - done.
  - destruct (f x); simpl; by rewrite IH.
  - by destruct (f x), (f y).
  - by rewrite IH1.
Qed.

Lemma filter_length_take {A} (f : A → bool) k l :
  length (List.filter f (take k l)) ≤ length (List.filter f l).
Proof.
  rewrite <- (take_drop k l) at 2.
  rewrite List.filter_app, length_app. lia.
Qed.

Lemma filter_length_slice_to {A} (f : A → bool) k l :
  length (List.filter f (slice_to k l)) ≤ length (List.filter f l).
Proof. unfold slice_to. destruct (0 <=? k)%Z; apply filter_length_take. Qed.

Lemma filter_length_map {A B} (g : A → B) (f : B → bool) l :
  length (List.filter f (map g l)) = length (List.filter (λ x, f (g x)) l).
Proof.
  induction l as [|x l IH]; [done|]. simpl.
  destruct (f (g x)); simpl; by rewrite IH.
Qed.

(** The indices that reach the floor are as many as the scores that do. *)
Lemma reaching_indices vec :
  let sims := cosine_similarity self vec in
  length (List.filter (reaches sims) (seq 0 (length sims))) =
  length (List.filter (Qle_bool lit.f0_10) sims).
Proof.
  intros sims. unfold sims at 3, cosine_similarity.
  rewrite filter_length_map. f_equal.
  assert (length sims = length (faq self)) as ->.
  { unfold sims, cosine_similarity. by rewrite length_map, length_seq. }
  apply List.filter_ext_in. intros i Hi%in_seq.
  unfold reaches, at_index, sims, cosine_similarity. f_equal.
  rewrite (nth_indep _ 0%Q (cosine self vec 0)).
  - rewrite map_nth. by rewrite seq_nth by lia.
  - rewrite length_map, length_seq. lia.
Qed.

(** C5: for every query and every number [top_k] of results asked for,
    [search] returns at most [top_k] results, each with a score of at
    least 0.10, ordered by non-increasing score; and when fewer than
    [top_k] entries reach the 0.10 floor, fewer than [top_k] results come
    back.  [top_k] is the Python int of the source; as a count it is not
    negative.  Blank queries are covered as well. *)
Theorem search_ranked query top_k w :
  (0 ≤ top_k)%Z →
  let results := (search ops self query top_k w).1 in
  (Z.of_nat (length results) ≤ top_k)%Z ∧
  Forall (λ r, (lit.f0_10 <= r.2)%Q) results ∧
  StronglySorted (λ r1 r2, (r2.2 <= r1.2)%Q) results ∧
  ((Z.of_nat (length (List.filter (Qle_bool lit.f0_10)
                        (cosine_similarity self query))) < top_k)%Z →
   (Z.of_nat (length results) < top_k)%Z).
Proof.
  intros Hk results. subst results. unfold search.
  destruct (blank ops query).
  { simpl. repeat split; [lia|constructor|constructor|lia]. }
  unfold bind, transform, ret. cbn [fst].
  set (sims := cosine_similarity self query).
  set (idxs := slice_to top_k (reverse (argsort sims))).
  assert (length (collect self sims idxs) ≤ Z.to_nat top_k) as Hlen.
  { rewrite collect_length. etrans; [apply List.filter_length_le|].
    by apply slice_to_length. }
  repeat split.
  - lia.
  - apply collect_floor.
  - apply collect_descending, slice_to_descending.
  - intros Hfew. rewrite collect_length.
    pose proof (filter_length_slice_to (reaches sims) top_k
                  (reverse (argsort sims))) as Hle.
    rewrite (filter_length_Permutation (reaches sims) (reverse (argsort sims))
               (seq 0 (length sims))) in Hle.
    2: { rewrite reverse_Permutation. apply argsort_Permutation. }
    unfold sims in Hle at 3 4. rewrite reaching_indices in Hle.
    fold sims idxs in Hle. lia.
Qed.

(** C6: a query that is empty, or that [strip] reduces to nothing, is
    answered without calling the vectorizer: the world, and with it the
    record of transformed queries, is left as it was; [answer] gives the
    fixed prompt with score 0.0 and empty metadata, [search] gives []. *)
Theorem blank_query_short_circuits query top_k w :
  query = "" ∨ strip ops query = "" →
  answer ops self query w =
    (("Veuillez poser une question liée à la cybersécurité.", lit.f0_0, ∅), w) ∧
  search ops self query top_k w = ([], w).
Proof.
  intros Hq.
  assert (blank ops query = true) as Hb.
  { unfold blank. destruct Hq as [-> | ->]; [done|].
    rewrite String.eqb_refl. apply orb_true_r. }
  unfold answer, search. by rewrite Hb.
Qed.

End retriever.

Lemma search_ranked_witness :
  let results := (faq_agent.search py.ascii_ops demo.agent "vpn" 3 demo.w0).1 in
  (Z.of_nat (length results) ≤ 3)%Z ∧
  Forall (λ r, (lit.f0_10 <= r.2)%Q) results ∧
  StronglySorted (λ r1 r2, (r2.2 <= r1.2)%Q) results ∧
  ((Z.of_nat (length (List.filter (Qle_bool lit.f0_10)
                        (faq_agent.cosine_similarity demo.agent "vpn"))) < 3)%Z →
   (Z.of_nat (length results) < 3)%Z).
Proof. apply (search_ranked py.ascii_ops demo.agent "vpn" 3 demo.w0). lia. Defined.

(** Outside the range of counts: with [top_k = -1] the slice [[:top_k]]
    keeps all indices but the last one, so on two entries, the first of
    them scoring above the floor, one result comes back. *)
Lemma search_negative_top_k :
  length (faq_agent.search py.ascii_ops demo.agent "vpn" (-1) demo.w0).1 = 1.
Proof. reflexivity. Qed.

Lemma blank_query_short_circuits_witness :
  faq_agent.answer py.ascii_ops demo.agent "   " demo.w0 =
    (("Veuillez poser une question liée à la cybersécurité.", lit.f0_0, ∅), demo.w0) ∧
  faq_agent.search py.ascii_ops demo.agent "   " 3 demo.w0 = ([], demo.w0).
Proof.
  apply (blank_query_short_circuits py.ascii_ops demo.agent "   " 3 demo.w0).
  right. reflexivity.
Defined.

(** ** The orchestrator *)

Section conversation.
Import py orchestrator.

Variable ops : StrOps.
Variable self : CyberOrchestrator.

Abbreviation pending_flow := "pending_flow" (only parsing).

(** The retriever never writes to the database. *)
Lemma tip_db a w : db (faq_agent.tip a w).2 = db w.
Proof. unfold faq_agent.tip. by destruct (faq_agent.tips a). Qed.

Lemma answer_db a query w : db (faq_agent.answer ops a query w).2 = db w.
Proof.
  unfold faq_agent.answer. destruct (blank ops query); [done|].
  unfold bind, faq_agent.transform. by destruct (Qle_bool _ _).
Qed.

Lemma search_db a query k w : db (faq_agent.search ops a query k w).2 = db w.
Proof. unfold faq_agent.search. by destruct (blank ops query). Qed.

(** Running one retriever call: name its result and keep what it did to
    the database. *)
Ltac run_call c lem :=
  let H := fresh "Hdb" in
  pose proof lem as H; destruct c as [? ?]; cbn [fst snd] in H.

Ltac back_to_db :=
  repeat match goal with H : db _ = db _ |- _ => rewrite H end.

Ltac run_retriever :=
  repeat match goal with
  | |- context [faq_agent.tip ?a ?w] =>
      run_call (faq_agent.tip a w) (tip_db a w)
  | |- context [faq_agent.answer ?o ?a ?q ?w] =>
      run_call (faq_agent.answer o a q w) (answer_db a q w)
  | |- context [faq_agent.search ?o ?a ?q ?k ?w] =>
      run_call (faq_agent.search o a q k w) (search_db a q k w)
  end.

(** What the follow-up handler does to the session, whatever the text. *)
Lemma handler_session text session uid w :
  (_handle_phishing_followup ops self text session uid w).1.2
  = delete pending_flow session.
Proof.
  unfold _handle_phishing_followup.
  destruct (contains "oui" _ || contains "identifiant" _ || contains "mot de passe" _);
    unfold bind; by destruct (faq_agent.tip _ _).
Qed.

(** What [respond] does to the session, branch by branch. *)
Lemma respond_session text session uid w :
  (respond ops self text session uid w).1.2 =
    if is_phishing_followup (session !! pending_flow) then
      delete pending_flow session
    else if (detect_intent ops text =? "phishing_incident")%string then
      <[ pending_flow := VStr "phishing_followup" ]> session
    else session.
Proof.
  unfold respond. destruct (is_phishing_followup _); [apply handler_session|].
  destruct (detect_intent ops text =? "greeting")%string eqn:Hg.
  { apply String.eqb_eq in Hg. rewrite Hg. unfold bind.
    by destruct (faq_agent.tip _ _). }
  destruct (detect_intent ops text =? "phishing_incident")%string.
  { unfold bind. destruct (faq_agent.search _ _ _ _ _).
    by destruct (faq_agent.tip _ _). }
  unfold bind. destruct (faq_agent.answer _ _ _ _) as [[[ans score] meta] w1].
  destruct (faq_agent.search _ _ _ _ _). destruct (faq_agent.tip _ _).
  by destruct (negb _ && _).
Qed.

(** The response and the effects on the world depend on the session only
    through its [pending_flow] entry. *)
Lemma respond_reads_pending text s1 s2 uid w :
  s1 !! pending_flow = s2 !! pending_flow →
  (respond ops self text s1 uid w).1.1 = (respond ops self text s2 uid w).1.1 ∧
  (respond ops self text s1 uid w).2 = (respond ops self text s2 uid w).2.
Proof.
  intros Heq. unfold respond. rewrite Heq.
  destruct (is_phishing_followup _).
  { unfold _handle_phishing_followup.
    destruct (contains "oui" _ || contains "identifiant" _ || contains "mot de passe" _);
      unfold bind; by destruct (faq_agent.tip _ _). }
  destruct (detect_intent ops text =? "greeting")%string.
  { unfold bind. by destruct (faq_agent.tip _ _). }
  destruct (detect_intent ops text =? "phishing_incident")%string.
  { unfold bind. destruct (faq_agent.search _ _ _ _ _).
    by destruct (faq_agent.tip _ _). }
  unfold bind. destruct (faq_agent.answer _ _ _ _) as [[[ans score] meta] w1].
  destruct (faq_agent.search _ _ _ _ _). destruct (faq_agent.tip _ _).
  by destruct (negb _ && _).
Qed.

(** C1: in the idle state an input classified [phishing_incident] leaves
    the session with [pending_flow] set to the follow-up marker; the next
    call on that session, whatever its text, user and world, is the
    follow-up handler itself (no classification takes place), and it hands
    back the session with [pending_flow] removed, so that no flow is
    pending afterwards. *)
Theorem phishing_flow_set_then_cleared text session uid w :
  is_phishing_followup (session !! pending_flow) = false →
  detect_intent ops text = "phishing_incident" →
  let session1 := (respond ops self text session uid w).1.2 in
  session1 = <[ pending_flow := VStr "phishing_followup" ]> session ∧
  session1 !! pending_flow = Some (VStr "phishing_followup") ∧
  ∀ text2 uid2 w1,
    let next := respond ops self text2 session1 uid2 w1 in
    next = _handle_phishing_followup ops self text2 session1 uid2 w1 ∧
    intent next.1.1 = "phishing_followup" ∧
    next.1.2 = delete pending_flow session1 ∧
    next.1.2 !! pending_flow = None ∧
    is_phishing_followup (next.1.2 !! pending_flow) = false.
Proof.
  intros Hidle Hintent session1.
  assert (session1 = <[ pending_flow := VStr "phishing_followup" ]> session) as Hs1.
  { unfold session1. rewrite respond_session, Hidle, Hintent. done. }
  assert (session1 !! pending_flow = Some (VStr "phishing_followup")) as Hp.
  { rewrite Hs1. apply lookup_insert_eq. }
  split; [done|]. split; [done|].
  intros text2 uid2 w1 next.
  assert (next = _handle_phishing_followup ops self text2 session1 uid2 w1) as Hn.
  { unfold next, respond. by rewrite Hp. }
  assert (next.1.2 = delete pending_flow session1) as Hd.
  { rewrite Hn. apply handler_session. }
  repeat split; [done| |done|..].
  - rewrite Hn. unfold _handle_phishing_followup.
    destruct (contains "oui" _ || contains "identifiant" _ || contains "mot de passe" _);
      unfold bind; by destruct (faq_agent.tip _ _).
  - rewrite Hd. apply lookup_delete_eq.
  - rewrite Hd, lookup_delete_eq. done.
Qed.

(** C10: [respond] hands back the session it was given, that session with
    [pending_flow] set to "phishing_followup", or that session with
    [pending_flow] removed; every other key keeps its value; and the
    response and the effects are the same for any two sessions that agree
    on [pending_flow]. *)
Theorem respond_session_frame text session uid w :
  let session' := (respond ops self text session uid w).1.2 in
  (session' = session ∨
   session' = <[ pending_flow := VStr "phishing_followup" ]> session ∨
   session' = delete pending_flow session) ∧
  (∀ key, key ≠ pending_flow → session' !! key = session !! key) ∧
  (∀ other, other !! pending_flow = session !! pending_flow →
     (respond ops self text other uid w).1.1 = (respond ops self text session uid w).1.1 ∧
     (respond ops self text other uid w).2 = (respond ops self text session uid w).2).
Proof.
  intros session'. unfold session'. rewrite respond_session.
  split; [|split].
  - destruct (is_phishing_followup _); [auto|].
    destruct (_ =? _)%string; auto.
  - intros key Hkey. destruct (is_phishing_followup _).
    { by rewrite lookup_delete_ne. }
    destruct (_ =? _)%string; [by rewrite lookup_insert_ne|done].
  - intros other Hother. by apply respond_reads_pending.
Qed.

(** The database after a call.  Every call of [respond] appends exactly
    one row to [conversations], holding the user, the text, the composed
    message and the intent of the response.  A call that classifies the
    text (no follow-up pending) also appends exactly one [question_asked]
    row tagged with that intent to [metrics]; a call handled as phishing
    follow-up leaves [metrics] as it was.  [incidents] is never written. *)
Lemma respond_logs text session uid w :
  let run := respond ops self text session uid w in
  let resp := run.1.1 in
  database.conversations (db run.2)
    = database.conversations (db w) ++ [turn uid text resp] ∧
  database.metrics (db run.2)
    = (if is_phishing_followup (session !! pending_flow)
       then database.metrics (db w)
       else database.metrics (db w) ++ [question_asked resp]) ∧
  database.incidents (db run.2) = database.incidents (db w).
Proof.
  cbv zeta. unfold respond. destruct (is_phishing_followup _).
  { unfold _handle_phishing_followup.
    destruct (contains "oui" _ || contains "identifiant" _ || contains "mot de passe" _);
      unfold bind; run_retriever; cbn; by back_to_db. }
  destruct (detect_intent ops text =? "greeting")%string.
  { unfold bind; run_retriever; cbn. by back_to_db. }
  destruct (detect_intent ops text =? "phishing_incident")%string.
  { unfold bind; run_retriever; cbn. by back_to_db. }
  unfold bind. run_retriever.
  match goal with p : (string * Q * faq_agent.Row)%type |- _ =>
    destruct p as [[ans score] meta] end.
  run_retriever.
  destruct (negb _ && _); cbn; by back_to_db.
Qed.

(** The result of [answer], case by case. *)
Lemma answer_result a query w :
  let sims := faq_agent.cosine_similarity a query in
  let best := faq_agent.argmax sims in
  let score := faq_agent.at_index sims best in
  (faq_agent.answer ops a query w).1 =
    if blank ops query then (faq_agent.blank_prompt, lit.f0_0, ∅)
    else if Qle_bool (faq_agent.min_similarity a) score
         then (faq_agent.get (faq_agent.iloc a best) "answer", score, faq_agent.iloc a best)
         else (faq_agent.fallback, score, ∅).
Proof.
  cbv zeta. unfold faq_agent.answer. destruct (blank ops query); [done|].
  unfold bind, faq_agent.transform. by destruct (Qle_bool _ _).
Qed.

(** The message of a call that reaches the end of [respond]. *)
Lemma respond_default_message text session uid w :
  let intent := detect_intent ops text in
  let found := (faq_agent.answer ops (faq self) text w).1 in
  let answer := found.1.1 in
  let score := found.1.2 in
  is_phishing_followup (session !! pending_flow) = false →
  (intent =? "greeting")%string = false →
  (intent =? "phishing_incident")%string = false →
  negb (Qle_bool lit.f0_15 score) &&
    ((intent =? "general")%string || (intent =? "incident_reporting")%string) = false →
  message (respond ops self text session uid w).1.1 =
    if (intent =? "password_security")%string && negb (Qle_bool lit.f0_3 score) then
      ("Voyons ensemble pour votre mot de passe :" +:+ LF +:+
       "1) Essayez la fonction « Mot de passe oublié » du portail." +:+ LF +:+
       "2) Si votre compte est bloqué, attendez 15 minutes puis réessayez." +:+ LF +:+
       "3) Si ça ne marche pas, contactez le support IT pour un reset sécurisé." +:+ LF +:+
       "4) Une fois réinitialisé, définissez un mot de passe unique et activez la MFA.")
      +:+ _enrich_md self "password_security"
    else if Qle_bool lit.f0_3 score then answer +:+ _enrich_md self intent
    else answer +:+ _enrich_md self "general".
Proof.
  cbv zeta. intros Hidle Hg Hp Hclar. unfold respond.
  rewrite Hidle, Hg, Hp. unfold bind.
  destruct (faq_agent.answer ops (faq self) text w) as [[[ans score] meta] w1].
  cbn [fst snd] in *. rewrite Hclar.
  destruct (faq_agent.search _ _ _ _ _). destruct (faq_agent.tip _ _).
  reflexivity.
Qed.

(** C3, as the code has it: at the end of [respond] (no follow-up pending,
    intent neither greeting nor phishing_incident, no clarification, no
    password fallback) the message is the text that [answer] retrieved,
    followed by the guidance of the current intent when the score is at
    least 0.3 and by the guidance of "general" otherwise.  The retrieved
    text is the answer of the best-matching entry only when its score
    reaches [min_similarity]; below it is the fixed fallback text, and for
    a blank query the fixed prompt. *)
Theorem default_branch_message text session uid w :
  let intent := detect_intent ops text in
  let sims := faq_agent.cosine_similarity (faq self) text in
  let best := faq_agent.argmax sims in
  let score := if blank ops text then lit.f0_0 else faq_agent.at_index sims best in
  let retrieved :=
    if blank ops text then faq_agent.blank_prompt
    else if Qle_bool (faq_agent.min_similarity (faq self)) score
         then faq_agent.get (faq_agent.iloc (faq self) best) "answer"
         else faq_agent.fallback in
  is_phishing_followup (session !! pending_flow) = false →
  (intent =? "greeting")%string = false →
  (intent =? "phishing_incident")%string = false →
  negb (Qle_bool lit.f0_15 score) &&
    ((intent =? "general")%string || (intent =? "incident_reporting")%string) = false →
  (intent =? "password_security")%string && negb (Qle_bool lit.f0_3 score) = false →
  message (respond ops self text session uid w).1.1 =
    retrieved +:+ _enrich_md self (if Qle_bool lit.f0_3 score then intent else "general").
Proof.
  cbv zeta. intros Hidle Hg Hp Hclar Hpw.
  pose proof (answer_result (faq self) text w) as Hans. cbv zeta in Hans.
  rewrite respond_default_message; try done.
  - rewrite Hans.
    destruct (blank ops text).
    + cbn [fst snd] in *. rewrite Hpw. by destruct (Qle_bool lit.f0_3 lit.f0_0).
    + destruct (Qle_bool (faq_agent.min_similarity _) _);
        cbn [fst snd] in *; rewrite Hpw; by destruct (Qle_bool lit.f0_3 _).
  - rewrite Hans. destruct (blank ops text); [done|].
    by destruct (Qle_bool (faq_agent.min_similarity _) _).
Qed.

(** C9: with no follow-up pending, a text classified [password_security]
    whose best score is below 0.3 gets the fixed four-step recovery script
    followed by the guidance of "password_security"; the clarification
    branch cannot take it, since that intent is neither "general" nor
    "incident_reporting". *)
Theorem password_fallback text session uid w :
  is_phishing_followup (session !! pending_flow) = false →
  detect_intent ops text = "password_security" →
  Qle_bool lit.f0_3 (faq_agent.answer ops (faq self) text w).1.1.2 = false →
  message (respond ops self text session uid w).1.1 =
    ("Voyons ensemble pour votre mot de passe :" +:+ LF +:+
     "1) Essayez la fonction « Mot de passe oublié » du portail." +:+ LF +:+
     "2) Si votre compte est bloqué, attendez 15 minutes puis réessayez." +:+ LF +:+
     "3) Si ça ne marche pas, contactez le support IT pour un reset sécurisé." +:+ LF +:+
     "4) Une fois réinitialisé, définissez un mot de passe unique et activez la MFA.")
    +:+ _enrich_md self "password_security".
Proof.
  intros Hidle Hintent Hlow.
  rewrite respond_default_message; rewrite ?Hintent, ?Hlow; try done.
  by rewrite andb_false_r.
Qed.

(** C8: with a follow-up pending, the lowercased text decides.  If it
    contains "oui", "identifiant" or "mot de passe", the response is the
    urgent remediation with its four steps; otherwise the lower-urgency
    one with its three steps.  Neither carries a suggestion. *)
Theorem followup_keyword_gated text session uid w :
  is_phishing_followup (session !! pending_flow) = true →
  let resp := (respond ops self text session uid w).1.1 in
  let t := lower ops text in
  suggestions resp = [] ∧
  if contains "oui" t || contains "identifiant" t || contains "mot de passe" t
  then
    length (steps resp) = 4 ∧
    steps resp = [ "Changez vos mots de passe maintenant";
                   "Activez la MFA partout";
                   "Contactez security@company.com";
                   "Surveillez vos comptes" ] ∧
    message resp =
      "Action immédiate requise :" +:+ LF +:+
      "1. Changez tous vos mots de passe immédiatement" +:+ LF +:+
      "2. Activez la MFA sur tous vos comptes" +:+ LF +:+
      "3. Contactez l'équipe sécurité : security@company.com" +:+ LF +:+
      "4. Surveillez vos comptes pour toute activité suspecte"
  else
    length (steps resp) = 3 ∧
    steps resp = [ "Signalez l'email à l'équipe IT";
                   "Supprimez l'email sans y répondre";
                   "Restez vigilant" ] ∧
    message resp =
      "Bien. Voici ce qu'il faut faire :" +:+ LF +:+
      "1. Ne réutilisez plus cet email" +:+ LF +:+
      "2. Signalez-le à votre équipe IT" +:+ LF +:+
      "3. Supprimez l'email" +:+ LF +:+
      "4. Restez vigilant pour les prochains emails".
Proof.
  intros Hpending. cbv zeta. unfold respond. rewrite Hpending.
  unfold _handle_phishing_followup.
  destruct (contains "oui" _ || contains "identifiant" _ || contains "mot de passe" _);
    unfold bind; by destruct (faq_agent.tip _ _).
Qed.

End conversation.

(** ** The classifier *)

Section classifier.
Import py orchestrator.

Variable ops : StrOps.

Lemma scan_no_match items t :
  Forall (λ item, any_in item.2 t = false) items → scan items t = "general".
Proof.
  induction 1 as [|[intent kws] items Hno _ IH]; [done|].
  simpl in *. by rewrite Hno.
Qed.

Lemma scan_first_match before intent kws after t :
  Forall (λ item, any_in item.2 t = false) before →
  any_in kws t = true →
  scan (before ++ (intent, kws) :: after) t = intent.
Proof.
  induction 1 as [|[i k] items Hno _ IH]; intros Hyes; simpl in *.
  - by rewrite Hyes.
  - rewrite Hno. by apply IH.
Qed.

(** C7: a text whose normalized form contains a greeting keyword is a
    greeting, whatever else it contains; a text whose normalized form
    contains no keyword of any list is "general"; and in between the first
    list, in the order of the table, with a keyword in the text wins. *)
Theorem detect_intent_first_match text :
  let t := normalize ops text in
  (any_in greeting_keywords t = true → detect_intent ops text = "greeting") ∧
  (any_in greeting_keywords t = false →
   Forall (λ item, any_in item.2 t = false) intent_keywords →
   detect_intent ops text = "general") ∧
  (∀ before intent kws after,
     intent_keywords = before ++ (intent, kws) :: after →
     any_in greeting_keywords t = false →
     Forall (λ item, any_in item.2 t = false) before →
     any_in kws t = true →
     detect_intent ops text = intent).
Proof.
  cbv zeta. unfold detect_intent. repeat split.
  - by intros ->.
  - intros -> Hnone. by apply scan_no_match.
  - intros before intent kws after -> -> Hbefore Hkws.
    by apply scan_first_match.
Qed.

End classifier.

(** ** The agent at work on the sample knowledge base *)

Section examples.
Import py orchestrator.

Abbreviation run_demo text session := (respond ascii_ops demo.bot text session "u1" demo.w0).

Lemma phishing_flow_witness :
  let session1 := (run_demo "j'ai recu un email suspect" demo.idle).1.2 in
  session1 = <[ "pending_flow" := VStr "phishing_followup" ]> demo.idle ∧
  session1 !! "pending_flow" = Some (VStr "phishing_followup") ∧
  ∀ text2 uid2 w1,
    let next := respond ascii_ops demo.bot text2 session1 uid2 w1 in
    next = _handle_phishing_followup ascii_ops demo.bot text2 session1 uid2 w1 ∧
    intent next.1.1 = "phishing_followup" ∧
    next.1.2 = delete "pending_flow" session1 ∧
    next.1.2 !! "pending_flow" = None ∧
    is_phishing_followup (next.1.2 !! "pending_flow") = false.
Proof.
  apply (phishing_flow_set_then_cleared ascii_ops demo.bot
           "j'ai recu un email suspect" demo.idle "u1" demo.w0);
    vm_compute; reflexivity.
Defined.

(** C2 on the follow-up branch: the reply "oui" to a pending phishing
    follow-up is logged as one row of [conversations], but [metrics] gets
    no [question_asked] row for it, unlike on every branch that ends in
    [respond] itself. *)
Theorem followup_turn_not_counted :
  let run := run_demo "oui" demo.pending in
  is_phishing_followup (demo.pending !! "pending_flow") = true ∧
  database.conversations (db run.2)
    = database.conversations (db demo.w0) ++ [turn "u1" "oui" run.1.1] ∧
  database.metrics (db run.2) = database.metrics (db demo.w0) ∧
  database.metrics (db run.2)
    ≠ database.metrics (db demo.w0) ++ [question_asked run.1.1].
Proof. vm_compute. repeat split; [done..|]. intros H. discriminate H. Qed.

(** The text "mfa" is classified [mfa]; no entry of the sample corpus
    shares a term with it, so its best score is 0.0, below
    [min_similarity]: the message starts with the fallback text and not
    with the answer of the best-matching entry. *)
Lemma default_branch_not_best_entry :
  let text := "mfa" in
  let sims := faq_agent.cosine_similarity demo.agent text in
  let best := faq_agent.argmax sims in
  let score := faq_agent.at_index sims best in
  is_phishing_followup (demo.idle !! "pending_flow") = false ∧
  detect_intent ascii_ops text = "mfa" ∧
  Qle_bool lit.f0_3 score = false ∧
  (faq_agent.answer ascii_ops demo.agent text demo.w0).1.1.2 = score ∧
  message (run_demo text demo.idle).1.1
    = faq_agent.fallback +:+ _enrich_md demo.bot "general" ∧
  message (run_demo text demo.idle).1.1
    ≠ faq_agent.get (faq_agent.iloc demo.agent best) "answer"
      +:+ _enrich_md demo.bot "general".
Proof. vm_compute. repeat split; [done..|]. intros H. discriminate H. Qed.

Lemma default_branch_message_witness :
  message (run_demo "mfa" demo.idle).1.1
    = faq_agent.fallback +:+ _enrich_md demo.bot "general".
Proof.
  apply (default_branch_message ascii_ops demo.bot "mfa" demo.idle "u1" demo.w0);
    vm_compute; reflexivity.
Defined.

(** C4 at work: on the greeting branch ("bonjour") and on the
    clarification branch ("merci", which matches no keyword and no entry)
    the first component of every suggestion is a one-key mapping
    [{"question": ...}], not a string. *)
Theorem canned_suggestions_are_mappings :
  let greet := (run_demo "bonjour" demo.idle).1.1 in
  let vague := (run_demo "merci" demo.idle).1.1 in
  intent greet = "greeting" ∧
  suggestions greet =
    [ (LDict {[ "question" := "🔐 Comment créer un mot de passe solide ?" ]}, 1%Q);
      (LDict {[ "question" := "🚨 Comment détecter un email suspect ?" ]}, 1%Q);
      (LDict {[ "question" := "🔑 Qu'est-ce que la MFA ?" ]}, 1%Q) ] ∧
  intent vague = "general" ∧
  suggestions vague =
    [ (LDict {[ "question" := "🚨 J'ai reçu un mail suspect" ]}, 1%Q);
      (LDict {[ "question" := "🔐 Mon mot de passe est bloqué" ]}, 1%Q);
      (LDict {[ "question" := "🔑 Activer la MFA" ]}, 1%Q);
      (LDict {[ "question" := "🛡️ Signaler un incident" ]}, 1%Q) ] ∧
  Forall (λ s, ∀ str, s.1 ≠ LStr str) (suggestions greet ++ suggestions vague).
Proof.
  vm_compute. repeat split; try reflexivity.
  repeat constructor; intros str H; discriminate H.
Qed.

Lemma detect_intent_witness :
  detect_intent ascii_ops "bonjour j'ai cliqué sur un lien suspect" = "greeting" ∧
  detect_intent ascii_ops "merci" = "general" ∧
  detect_intent ascii_ops "mon code otp" = "mfa".
Proof.
  split; [|split].
  - apply (detect_intent_first_match ascii_ops
             "bonjour j'ai cliqué sur un lien suspect").
    vm_compute; reflexivity.
  - apply (detect_intent_first_match ascii_ops "merci").
    + vm_compute; reflexivity.
    + vm_compute. repeat constructor.
  - apply (proj2 (proj2 (detect_intent_first_match ascii_ops "mon code otp"))
             (take 2 intent_keywords) "mfa"
             ["mfa"; "2fa"; "authentification"; "double authentification";
              "multifacteur"; "code"; "verification"; "token"; "otp";
              "deux facteurs"; "validation"]
             (drop 3 intent_keywords)).
    + reflexivity.
    + vm_compute; reflexivity.
    + vm_compute. repeat constructor.
    + vm_compute; reflexivity.
Defined.

Lemma followup_keyword_gated_witness :
  let resp := (run_demo "Oui, j'ai saisi mon mot de passe" demo.pending).1.1 in
  suggestions resp = [] ∧
  length (steps resp) = 4 ∧
  steps resp = [ "Changez vos mots de passe maintenant";
                 "Activez la MFA partout";
                 "Contactez security@company.com";
                 "Surveillez vos comptes" ] ∧
  message resp =
    "Action immédiate requise :" +:+ LF +:+
    "1. Changez tous vos mots de passe immédiatement" +:+ LF +:+
    "2. Activez la MFA sur tous vos comptes" +:+ LF +:+
    "3. Contactez l'équipe sécurité : security@company.com" +:+ LF +:+
    "4. Surveillez vos comptes pour toute activité suspecte".
Proof.
  apply (followup_keyword_gated ascii_ops demo.bot
           "Oui, j'ai saisi mon mot de passe" demo.pending "u1" demo.w0).
  vm_compute; reflexivity.
Defined.

Lemma password_fallback_witness :
  message (run_demo "mot de passe perdu" demo.idle).1.1 =
    ("Voyons ensemble pour votre mot de passe :" +:+ LF +:+
     "1) Essayez la fonction « Mot de passe oublié » du portail." +:+ LF +:+
     "2) Si votre compte est bloqué, attendez 15 minutes puis réessayez." +:+ LF +:+
     "3) Si ça ne marche pas, contactez le support IT pour un reset sécurisé." +:+ LF +:+
     "4) Une fois réinitialisé, définissez un mot de passe unique et activez la MFA.")
    +:+ _enrich_md demo.bot "password_security".
Proof.
  apply (password_fallback ascii_ops demo.bot "mot de passe perdu" demo.idle
           "u1" demo.w0); vm_compute; reflexivity.
Defined.

(** The script keeps the narrow no-break spaces (U+202F, bytes 226 128
    175) that the source has inside the guillemets. *)
Lemma password_script_spacing :
  let nnbsp := String "226" (String "128" (String "175" "")) in
  contains ("«" +:+ nnbsp +:+ "Mot de passe oublié" +:+ nnbsp +:+ "»")
    (message (run_demo "mot de passe perdu" demo.idle).1.1) = true.
Proof. vm_compute. reflexivity. Qed.

Lemma respond_session_frame_witness :
  let session' := (run_demo "j'ai recu un email suspect" demo.idle).1.2 in
  session' !! "lang" = Some (VStr "fr") ∧
  (run_demo "j'ai recu un email suspect" (delete "lang" demo.idle)).1.1
    = (run_demo "j'ai recu un email suspect" demo.idle).1.1.
Proof.
  pose proof (respond_session_frame ascii_ops demo.bot
                "j'ai recu un email suspect" demo.idle "u1" demo.w0)
    as (_ & Hframe & Hreads).
  split.
  - rewrite Hframe; [reflexivity | discriminate].
  - apply Hreads. vm_compute; reflexivity.
Defined.

End examples.

(** * Further properties *)

(** ** Substrings *)

Section substrings.
Import py.

Lemma string_app_cons c s t : String c s +:+ t = String c (s +:+ t).
Proof. reflexivity. Qed.

Lemma string_app_nil_l t : "" +:+ t = t.
Proof. reflexivity. Qed.

Lemma string_app_assoc s t u : (s +:+ t) +:+ u = s +:+ (t +:+ u).
Proof. induction s as [|c s IH]; [done|]. by rewrite !string_app_cons, IH. Qed.

Lemma string_app_nil_r s : s +:+ "" = s.
Proof. induction s as [|c s IH]; [done|]. by rewrite string_app_cons, IH. Qed.

Lemma prefix_spec k t : String.prefix k t = true ↔ ∃ post, t = k +:+ post.
Proof.
  revert t. induction k as [|c k IH]; intros t.
  - split; [intros _; by exists t|intros _; by destruct t].
  - destruct t as [|d t]; simpl.
    + split; [done|]. intros [post H]. by rewrite string_app_cons in H.
    + destruct (Ascii.ascii_dec c d) as [->|Hne].
      * rewrite IH. split; intros [post H]; exists post.
        -- by rewrite string_app_cons, H.
        -- rewrite string_app_cons in H. by simplify_eq.
      * split; [done|]. intros [post H]. rewrite string_app_cons in H. by simplify_eq.
Qed.

Lemma contains_spec k t :
  contains k t = true ↔ ∃ pre post, t = pre +:+ k +:+ post.
Proof.
  induction t as [|d t IH].
  - cbn [contains]. rewrite orb_false_r, prefix_spec. split.
    + intros [post H]. by exists "", post.
    + intros (pre & post & H). destruct pre; [by exists post|].
      by rewrite string_app_cons in H.
  - cbn [contains]. rewrite orb_true_iff, prefix_spec, IH. split.
    + intros [[post H]|(pre & post & H)].
      * by exists "", post.
      * exists (String d pre), post. by rewrite string_app_cons, H.
    + intros (pre & post & H). destruct pre as [|c pre].
      * left. by exists post.
      * right. rewrite string_app_cons in H. simplify_eq. by exists pre, post.
Qed.

Lemma contains_trans a b t :
  contains a b = true → contains b t = true → contains a t = true.
Proof.
  rewrite !contains_spec. intros (p1 & q1 & ->) (p2 & q2 & ->).
  exists (p2 +:+ p1), (q1 +:+ q2). by rewrite !string_app_assoc.
Qed.

Lemma any_in_true keywords t :
  any_in keywords t = true ↔ ∃ k, k ∈ keywords ∧ contains k t = true.
Proof.
  unfold any_in. rewrite existsb_exists. setoid_rewrite <- list_elem_of_In. done.
Qed.

End substrings.

Section classifier_range.
Import py orchestrator.
Variable ops : StrOps.

Lemma scan_range items t :
  scan items t = "general" ∨ scan items t ∈ items.*1.
Proof.
  induction items as [|[intent kws] items IH]; [by left|].
  cbn [scan]. destruct (any_in kws t).
  - right. rewrite fmap_cons. apply list_elem_of_here.
  - destruct IH as [IH|IH]; [by left|right].
    rewrite fmap_cons. by apply list_elem_of_further.
Qed.

Lemma detect_intent_labels text :
  detect_intent ops text ∈
    ["greeting"; "phishing_incident"; "password_security"; "mfa"; "vpn";
     "updates"; "data_sensitivity"; "incident_reporting"; "general"].
Proof.
  unfold detect_intent. destruct (any_in greeting_keywords _).
  { apply list_elem_of_here. }
  destruct (scan_range intent_keywords (normalize ops text)) as [-> | H].
  - rewrite !elem_of_cons. tauto.
  - apply list_elem_of_further. revert H.
    generalize (scan intent_keywords (normalize ops text)). intros s.
    change (intent_keywords.*1) with
      ["phishing_incident"; "password_security"; "mfa"; "vpn";
       "updates"; "data_sensitivity"; "incident_reporting"].
    rewrite !elem_of_cons. tauto.
Qed.

(** X1: the classifier answers with one of nine labels, "greeting", the seven
    intents of the keyword table or "general"; it never answers
    "phishing_followup" and never the empty string. *)
Theorem detect_intent_range text :
  detect_intent ops text ∈
    ["greeting"; "phishing_incident"; "password_security"; "mfa"; "vpn";
     "updates"; "data_sensitivity"; "incident_reporting"; "general"] ∧
  detect_intent ops text ≠ "phishing_followup" ∧
  detect_intent ops text ≠ "".
Proof.
  pose proof (detect_intent_labels text) as Hin.
  split; [done|].
  split; intros Heq; rewrite Heq in Hin;
    rewrite !elem_of_cons, elem_of_nil in Hin;
    repeat (destruct Hin as [Hin|Hin]; [discriminate Hin|]); done.
Qed.

(** X2: "hi" is a greeting keyword and greetings are tested first, so a text
    whose normalized form contains "phishing" or "fichier" is classified
    "greeting": the keywords "phishing" (phishing_incident) and "fichier",
    "partager fichier", "envoyer fichier" (data_sensitivity) can never
    decide a classification. *)
Theorem greeting_shadows_keywords text :
  let t := normalize ops text in
  contains "phishing" t = true ∨ contains "fichier" t = true →
  detect_intent ops text = "greeting".
Proof.
  intros t Hkw. unfold detect_intent. fold t.
  assert (any_in greeting_keywords t = true) as ->; [|done].
  apply any_in_true. exists "hi". split.
  { unfold greeting_keywords. rewrite !elem_of_cons. do 4 right. by left. }
  destruct Hkw as [H|H]; (eapply contains_trans; [|exact H]); reflexivity.
Qed.

End classifier_range.

Section normalization.
Import py orchestrator.

Lemma str_prefix_cons c k d t :
  String.prefix (String c k) (String d t)
  = if Ascii.ascii_dec c d then String.prefix k t else false.
Proof. reflexivity. Qed.

Lemma contains_cons k d t :
  contains k (String d t) = String.prefix k (String d t) || contains k t.
Proof. reflexivity. Qed.

Lemma str_prefix_nil_l t : String.prefix "" t = true.
Proof. by destruct t. Qed.

(** *** One-byte patterns *)

Lemma contains_byte_cons c d t :
  contains (String c "") (String d t)
  = (if Ascii.ascii_dec c d then true else false) || contains (String c "") t.
Proof.
  rewrite contains_cons, str_prefix_cons, str_prefix_nil_l. by destruct (Ascii.ascii_dec c d).
Qed.

Lemma contains_byte_app c s t :
  contains (String c "") (s +:+ t)
  = contains (String c "") s || contains (String c "") t.
Proof.
  induction s as [|d s IH].
  - rewrite string_app_nil_l. by destruct t.
  - rewrite string_app_cons, !contains_byte_cons, IH. by rewrite orb_assoc.
Qed.

(** A byte that the replacement text does not bring in stays absent. *)
Lemma replace_go_keeps_byte_out c old new s : ∀ skip,
  contains (String c "") new = false →
  contains (String c "") s = false →
  contains (String c "") (replace_go old new s skip) = false.
Proof.
  induction s as [|d s IH]; intros skip Hnew Hs; [done|].
  rewrite contains_byte_cons in Hs. apply orb_false_iff in Hs as [Hd Hs].
  cbn [replace_go]. destruct skip as [|k]; [|by apply IH].
  destruct (String.prefix old (String d s)).
  - rewrite contains_byte_app, Hnew. by apply IH.
  - rewrite contains_byte_cons, Hd. by apply IH.
Qed.

(** Replacing a byte by another one removes it. *)
Lemma replace_byte_gone c d s :
  c ≠ d →
  contains (String c "") (replace (String c "") (String d "") s) = false.
Proof.
  intros Hcd. unfold replace. induction s as [|x s IH]; [done|].
  cbn [replace_go]. rewrite str_prefix_cons, str_prefix_nil_l.
  destruct (Ascii.ascii_dec c x) as [->|Hx].
  - cbn [String.length Nat.sub]. rewrite string_app_cons, string_app_nil_l.
    rewrite contains_byte_cons, IH. by destruct (Ascii.ascii_dec x d).
  - rewrite contains_byte_cons, IH. by destruct (Ascii.ascii_dec c x).
Qed.

(** *** Two-byte patterns with the same first byte *)

Lemma contains_pair_cons a b d t :
  contains (String a (String b "")) (String d t)
  = String.prefix (String a (String b "")) (String d t)
    || contains (String a (String b "")) t.
Proof. reflexivity. Qed.

(** The output of a fresh scan starts with [b'] only if the input does. *)
Lemma replace_go_head a b e b' s out :
  e ≠ b' →
  replace_go (String a (String b "")) (String e "") s 0 = String b' out →
  ∃ rest, s = String b' rest.
Proof.
  intros He. destruct s as [|x s]; [done|]. cbn [replace_go].
  destruct (String.prefix _ _).
  - rewrite string_app_cons. intros [= ? _]. done.
  - intros [= -> _]. by eexists.
Qed.

Lemma replace_go_pair_out a b b' e s : ∀ skip,
  e ≠ a →
  e ≠ b' →
  b' = b ∨ contains (String a (String b' "")) s = false →
  contains (String a (String b' ""))
    (replace_go (String a (String b "")) (String e "") s skip) = false.
Proof.
  induction s as [|x s IH]; intros skip Hea Heb Hs; [by destruct skip|].
  assert (b' = b ∨ contains (String a (String b' "")) s = false) as Hs'.
  { destruct Hs as [?|Hs]; [by left|right].
    rewrite contains_pair_cons in Hs. by apply orb_false_iff in Hs as [_ ?]. }
  cbn [replace_go]. destruct skip as [|k]; [|by apply IH].
  destruct (String.prefix (String a (String b "")) (String x s)) eqn:Hmatch.
  - rewrite string_app_cons, string_app_nil_l, contains_pair_cons, str_prefix_cons.
    destruct (Ascii.ascii_dec a e); [congruence|]. by apply IH.
  - rewrite contains_pair_cons, IH, orb_false_r by done.
    rewrite str_prefix_cons. destruct (Ascii.ascii_dec a x) as [<-|]; [|done].
    destruct (replace_go _ _ s 0) as [|y out] eqn:Hout; [done|].
    rewrite str_prefix_cons, str_prefix_nil_l.
    destruct (Ascii.ascii_dec b' y) as [<-|]; [|done].
    apply replace_go_head in Hout as [rest ->]; [|done].
    destruct Hs as [->|Hs].
    + rewrite !str_prefix_cons, str_prefix_nil_l in Hmatch.
      destruct (Ascii.ascii_dec a a); [|done].
      by destruct (Ascii.ascii_dec b b).
    + rewrite contains_pair_cons, !str_prefix_cons, str_prefix_nil_l in Hs.
      destruct (Ascii.ascii_dec a a); [|done].
      by destruct (Ascii.ascii_dec b' b').
Qed.

Variable ops : StrOps.

(** X3: whatever [lower] returns, the text the keywords are matched against
    holds no apostrophe, no hyphen and none of "é", "è", "ê": each is
    removed by its own [replace] and not brought back by a later one. *)
Theorem normalize_strips text :
  let t := normalize ops text in
  contains "'" t = false ∧ contains "-" t = false ∧
  contains "é" t = false ∧ contains "è" t = false ∧ contains "ê" t = false.
Proof.
  cbv zeta. unfold normalize, replace.
  set (t0 := lower ops text).
  repeat split.
  - do 3 (apply replace_go_keeps_byte_out; [done|]).
    apply replace_go_keeps_byte_out; [done|]. by apply replace_byte_gone.
  - do 3 (apply replace_go_keeps_byte_out; [done|]). by apply replace_byte_gone.
  - do 2 (apply replace_go_pair_out; [done|done|right]).
    apply replace_go_pair_out; [done|done|by left].
  - apply replace_go_pair_out; [done|done|right].
    apply replace_go_pair_out; [done|done|by left].
  - apply replace_go_pair_out; [done|done|by left].
Qed.

End normalization.

Section retriever_more.
Import py faq_agent.

Variable ops : StrOps.
Variable self : CyberFAQAgent.

Lemma at_index_cosine query i :
  i < length (faq self) →
  at_index (cosine_similarity self query) i = cosine self query i.
Proof.
  intros Hi. unfold at_index, cosine_similarity.
  rewrite (nth_indep _ 0%Q (cosine self query 0)).
  - rewrite map_nth. by rewrite seq_nth by lia.
  - rewrite length_map, length_seq. lia.
Qed.

Lemma cosine_similarity_length query :
  length (cosine_similarity self query) = length (faq self).
Proof. unfold cosine_similarity. by rewrite length_map, length_seq. Qed.

(** [argmax_from] continues a scan: [pre] is the part already seen. *)
Lemma argmax_from_spec l : ∀ pre best_i best,
  best_i < length pre →
  nth best_i pre 0%Q = best →
  (∀ j, j < length pre → (nth j pre 0 <= best)%Q) →
  (∀ j, j < best_i → (nth j pre 0 < best)%Q) →
  let r := argmax_from best_i best (length pre) l in
  let full := pre ++ l in
  r < length full ∧
  (∀ j, j < length full → (nth j full 0 <= nth r full 0)%Q) ∧
  (∀ j, j < r → (nth j full 0 < nth r full 0)%Q).
Proof.
  induction l as [|x l IH]; intros pre best_i best Hlt Hbest Hmax Hfirst.
  - cbn [argmax_from]. rewrite app_nil_r. rewrite Hbest. auto.
  - cbn [argmax_from]. cbv zeta.
    replace (pre ++ x :: l) with ((pre ++ [x]) ++ l) by by rewrite <- app_assoc.
    replace (S (length pre)) with (length (pre ++ [x]))
      by (rewrite length_app; simpl; lia).
    destruct (Qle_bool x best) eqn:Hx.
    + apply Qle_bool_iff in Hx. apply IH.
      * rewrite length_app. simpl. lia.
      * rewrite app_nth1 by done. done.
      * intros j Hj. rewrite length_app in Hj. simpl in Hj.
        destruct (decide (j < length pre)) as [Hj'|Hj'].
        -- rewrite app_nth1 by done. by apply Hmax.
        -- assert (j = length pre) as -> by lia.
           rewrite app_nth2, Nat.sub_diag by lia. done.
      * intros j Hj. rewrite app_nth1 by lia. by apply Hfirst.
    + assert (best < x)%Q as Hgt.
      { apply Qnot_le_lt. intros Hle. apply Qle_bool_iff in Hle. congruence. }
      apply IH.
      * rewrite length_app. simpl. lia.
      * rewrite app_nth2, Nat.sub_diag by lia. done.
      * intros j Hj. rewrite length_app in Hj. simpl in Hj.
        destruct (decide (j < length pre)) as [Hj'|Hj'].
        -- rewrite app_nth1 by done. apply Qlt_le_weak.
           eapply Qle_lt_trans; [by apply Hmax|done].
        -- assert (j = length pre) as -> by lia.
           rewrite app_nth2, Nat.sub_diag by lia. apply Qle_refl.
      * intros j Hj. rewrite app_nth1 by lia.
        eapply Qle_lt_trans; [by apply Hmax|done].
Qed.

Lemma argmax_spec sims :
  sims ≠ [] →
  let r := argmax sims in
  r < length sims ∧
  (∀ j, j < length sims → (at_index sims j <= at_index sims r)%Q) ∧
  (∀ j, j < r → (at_index sims j < at_index sims r)%Q).
Proof.
  destruct sims as [|x l]; [done|]. intros _. cbn [argmax].
  apply (argmax_from_spec l [x] 0 x); simpl; try lia; try done.
  - intros j Hj. assert (j = 0) as -> by lia. apply Qle_refl.
Qed.

(** X4: for a query that is not blank, the score [answer] reports is the
    largest similarity over all entries, and it is the similarity of an
    entry that no earlier entry equals (the first maximum).  When that
    score reaches [min_similarity] the metadata is that entry and the text
    its "answer" field, on a knowledge base whose entries carry the same
    keys; below, the text is the fixed fallback and the metadata is empty,
    the score being reported all the same. *)
Theorem answer_best_match query w :
  blank ops query = false →
  let found := (answer ops self query w).1 in
  let score := found.1.2 in
  (∀ i, i < length (faq self) → (cosine self query i <= score)%Q) ∧
  ∃ best,
    best < length (faq self) ∧
    score = cosine self query best ∧
    (∀ j, j < best → (cosine self query j < score)%Q) ∧
    if Qle_bool (min_similarity self) score
    then uniform_keys self →
         faq self !! best = Some found.2 ∧ found.1.1 = get found.2 "answer"
    else found.2 = ∅ ∧ found.1.1 = fallback.
Proof.
  intros Hblank. cbv zeta. unfold answer. rewrite Hblank.
  unfold bind, transform.
  set (sims := cosine_similarity self query).
  pose proof (cosine_similarity_length query) as Hlen. fold sims in Hlen.
  assert (sims ≠ []) as Hne.
  { intros Hnil. rewrite Hnil in Hlen. by unfold faq in Hlen. }
  destruct (argmax_spec sims Hne) as (Hr & Hmax & Hfirst).
  rewrite Hlen in Hr.
  assert (at_index sims (argmax sims) = cosine self query (argmax sims)) as Hbest
    by by apply at_index_cosine.
  assert (∀ i, i < length (faq self) →
            (cosine self query i <= at_index sims (argmax sims))%Q) as Hall.
  { intros i Hi. rewrite <- (at_index_cosine query i Hi). apply Hmax.
    by rewrite Hlen. }
  assert (∀ j, j < argmax sims →
            (cosine self query j < at_index sims (argmax sims))%Q) as Hbefore.
  { intros j Hj. rewrite <- (at_index_cosine query j) by lia. by apply Hfirst. }
  destruct (Qle_bool (min_similarity self) (at_index sims (argmax sims))) eqn:Hmin;
    unfold ret; cbn [fst snd]; (split; [done|]); exists (argmax sims);
    rewrite ?Hmin; repeat split; try done.
  unfold iloc.
  destruct (nth_lookup_or_length (faq self) (argmax sims) (faq_head self));
    [done|lia].
Qed.

(** [collect] keeps the indices that reach the floor. *)
Lemma collect_as_map sims idxs :
  collect self sims idxs =
    map (λ i, (iloc self i, at_index sims i)) (List.filter (reaches sims) idxs).
Proof.
  induction idxs as [|i idxs IH]; [done|].
  cbn [collect List.filter]. unfold reaches at 1.
  destruct (Qle_bool _ _); [cbn [map]|]; by rewrite IH.
Qed.

Lemma filter_none {A} (f : A → bool) l :
  (∀ y, y ∈ l → f y = false) → List.filter f l = [].
Proof.
  induction l as [|x l IH]; intros Hall; [done|]. simpl.
  rewrite (Hall x) by apply list_elem_of_here.
  apply IH. intros y Hy. apply Hall. by apply list_elem_of_further.
Qed.

(** In a ranking that runs from the best score down, the entries that
    reach the floor come first. *)
Lemma filter_take_descending sims l k :
  StronglySorted (flip (score_le sims)) l →
  List.filter (reaches sims) (take k l) = take k (List.filter (reaches sims) l).
Proof.
  intros Hsorted. revert k.
  induction Hsorted as [|x l _ IH Hx]; intros k; [by destruct k|].
  destruct k as [|k]; [done|]. cbn [take List.filter].
  destruct (reaches sims x) eqn:Hrx.
  - cbn [take]. by rewrite IH.
  - assert (List.filter (reaches sims) l = []) as Hnone.
    { apply filter_none. intros y Hy.
      rewrite Forall_forall in Hx. specialize (Hx y Hy).
      unfold flip, score_le in Hx. unfold reaches in *.
      destruct (Qle_bool lit.f0_10 (at_index sims y)) eqn:Hry; [|done].
      apply Qle_bool_iff in Hry.
      assert (Qle_bool lit.f0_10 (at_index sims x) = true) as Hc.
      { apply Qle_bool_iff. by eapply Qle_trans. }
      congruence. }
    rewrite IH, Hnone. by destruct k.
Qed.

Lemma collect_take sims k :
  collect self sims (take k (reverse (argsort sims)))
  = take k (collect self sims (reverse (argsort sims))).
Proof.
  rewrite !collect_as_map, filter_take_descending by apply ranking_descending.
  by rewrite <- fmap_take.
Qed.

(** X5: for 0 <= k <= k', the results for [top_k = k] are the first k results
    for [top_k = k']; and for a query that is not blank their number is
    exactly the smaller of k and the number of entries whose similarity
    reaches 0.10 (none for a blank query). *)
Theorem search_top_k_prefix query k k' w :
  (0 ≤ k ≤ k')%Z →
  let results := (search ops self query k w).1 in
  results = take (Z.to_nat k) (search ops self query k' w).1 ∧
  length results =
    if blank ops query then 0
    else Z.to_nat k `min`
         length (List.filter (Qle_bool lit.f0_10) (cosine_similarity self query)).
Proof.
  intros Hk. cbv zeta. unfold search. destruct (blank ops query).
  { cbn. by rewrite take_nil. }
  unfold bind, transform. cbn [fst].
  set (sims := cosine_similarity self query).
  unfold slice_to.
  destruct (Z.leb_spec 0 k); [|lia]. destruct (Z.leb_spec 0 k'); [|lia].
  rewrite !collect_take. unfold ret. cbn [fst]. split.
  - rewrite take_take. f_equal. lia.
  - rewrite length_take, collect_length.
    rewrite (filter_length_Permutation (reaches sims) (reverse (argsort sims))
               (seq 0 (length sims))).
    2: { rewrite reverse_Permutation. apply argsort_Permutation. }
    unfold sims. by rewrite (reaching_indices self query).
Qed.

Lemma search_result query k w :
  (search ops self query k w).1 =
    if blank ops query then []
    else let sims := cosine_similarity self query in
         collect self sims (slice_to k (reverse (argsort sims))).
Proof. unfold search. by destruct (blank ops query). Qed.

Lemma search_world query k w w' :
  (search ops self query k w).1 = (search ops self query k w').1.
Proof. by rewrite !search_result. Qed.

(** What [collect] returns from a slice of the ranking: entries of the
    knowledge base with their own similarity, all reaching the floor. *)
Lemma collect_sound query k :
  let sims := cosine_similarity self query in
  Forall (λ r, (lit.f0_10 <= r.2)%Q ∧
               ∃ i, faq self !! i = Some r.1 ∧ r.2 = cosine self query i)
    (collect self sims (slice_to k (reverse (argsort sims)))).
Proof.
  intros sims. rewrite collect_as_map. apply Forall_forall.
  intros r Hr%list_elem_of_In%in_map_iff. destruct Hr as (i & <- & Hi).
  apply List.filter_In in Hi as [Hi Hreach]. apply list_elem_of_In in Hi.
  apply ranking_in_range in Hi. unfold sims in Hi.
  rewrite cosine_similarity_length in Hi. cbn [fst snd]. split.
  - by apply Qle_bool_iff.
  - exists i. split; [|by apply at_index_cosine].
    unfold iloc.
    destruct (nth_lookup_or_length (faq self) i (faq_head self)); [done|lia].
Qed.

(** X6: for every [top_k], negative ones included, the results of [search]
    stand for distinct entries of the knowledge base: their scores are the
    similarities to the query of entries at indices of which none occurs
    twice; and on a knowledge base whose entries carry the same keys each
    result is such an entry itself, paired with its own similarity. *)
Theorem search_results_genuine query top_k w :
  ∃ idxs,
    NoDup idxs ∧
    Forall (λ i, i < length (faq self)) idxs ∧
    (search ops self query top_k w).1.*2 = cosine self query <$> idxs ∧
    (uniform_keys self →
     (search ops self query top_k w).1
       = map (λ i, (nth i (faq self) ∅, cosine self query i)) idxs).
Proof.
  cut (∃ idxs,
         NoDup idxs ∧
         Forall (λ i, i < length (faq self)) idxs ∧
         (search ops self query top_k w).1
           = map (λ i, (nth i (faq self) ∅, cosine self query i)) idxs).
  { intros (idxs & Hnodup & Hrange & Heq). exists idxs.
    repeat split; [done|done| |done].
    rewrite Heq. rewrite <- list_fmap_compose. done. }
  unfold search. destruct (blank ops query).
  { exists []. repeat split; constructor. }
  unfold bind, transform. cbn [fst].
  set (sims := cosine_similarity self query).
  set (idxs := slice_to top_k (reverse (argsort sims))).
  assert (Forall (λ i, i < length (faq self)) idxs) as Hrange.
  { apply Forall_forall. intros i Hi.
    pose proof (ranking_in_range sims top_k i Hi) as Hlt.
    unfold sims in Hlt. by rewrite cosine_similarity_length in Hlt. }
  assert (NoDup idxs) as Hnodup.
  { unfold idxs, slice_to.
    assert (NoDup (reverse (argsort sims))) as Hnd.
    { rewrite reverse_Permutation, argsort_Permutation. apply NoDup_seq. }
    destruct (0 <=? top_k)%Z;
      apply (sublist_NoDup _ _ Hnd), sublist_take. }
  exists (List.filter (reaches sims) idxs). split; [|split].
  - apply NoDup_ListNoDup. apply List.NoDup_filter. by apply NoDup_ListNoDup.
  - apply Forall_forall. intros i Hi%list_elem_of_In%List.filter_In.
    rewrite Forall_forall in Hrange. apply Hrange. apply list_elem_of_In. tauto.
  - rewrite collect_as_map. apply map_ext_in.
    intros i Hi%List.filter_In. destruct Hi as [Hi _]. apply list_elem_of_In in Hi.
    rewrite Forall_forall in Hrange. specialize (Hrange i Hi).
    unfold sims. rewrite at_index_cosine by done. f_equal.
    unfold iloc. apply nth_indep. done.
Qed.

Lemma answer_score query w :
  blank ops query = false →
  (answer ops self query w).1.1.2
  = at_index (cosine_similarity self query) (argmax (cosine_similarity self query)).
Proof.
  intros Hblank. pose proof (answer_result ops self query w) as Hres.
  cbv zeta in Hres. rewrite Hres, Hblank. by destruct (Qle_bool _ _).
Qed.

(** X7: [search] and [answer] agree: for a query that is not blank and
    [top_k >= 1], the first result of [search] carries the score that
    [answer] reports, provided that score reaches 0.10; and [search]
    returns nothing exactly when that score is below 0.10. *)
Theorem search_head_is_best query top_k w :
  blank ops query = false →
  (1 ≤ top_k)%Z →
  let score := (answer ops self query w).1.1.2 in
  match (search ops self query top_k w).1 with
  | [] => Qle_bool lit.f0_10 score = false
  | r :: _ => (r.2 == score)%Q ∧ Qle_bool lit.f0_10 score = true
  end.
Proof.
  intros Hblank Hk. cbv zeta. rewrite answer_score by done.
  unfold search. rewrite Hblank. unfold bind, transform, ret. cbn [fst].
  set (sims := cosine_similarity self query).
  pose proof (cosine_similarity_length query) as Hlen. fold sims in Hlen.
  assert (sims ≠ []) as Hne.
  { intros Hnil. rewrite Hnil in Hlen. by unfold faq in Hlen. }
  destruct (argmax_spec sims Hne) as (Hm & Hmax & _).
  set (m := argmax sims) in *.
  pose proof (ranking_descending sims) as Hsorted.
  assert (reverse (argsort sims) ≡ₚ seq 0 (length sims)) as Hperm.
  { rewrite reverse_Permutation. apply argsort_Permutation. }
  destruct (reverse (argsort sims)) as [|i0 rest] eqn:HL.
  { apply Permutation_length in Hperm. rewrite length_seq in Hperm.
    simpl in Hperm. destruct sims; [done|simpl in Hperm; lia]. }
  apply StronglySorted_inv in Hsorted as [_ Hrest].
  assert (∀ j, j < length sims → (at_index sims j <= at_index sims i0)%Q) as Htop.
  { intros j Hj.
    assert (j ∈ i0 :: rest) as Hin.
    { rewrite Hperm. apply elem_of_seq. lia. }
    apply elem_of_cons in Hin as [->|Hin]; [apply Qle_refl|].
    rewrite Forall_forall in Hrest. by apply Hrest. }
  assert (i0 < length sims) as Hi0.
  { assert (i0 ∈ seq 0 (length sims)) as Hin.
    { rewrite <- Hperm. apply list_elem_of_here. }
    apply elem_of_seq in Hin. lia. }
  assert (at_index sims i0 == at_index sims m)%Q as Heq.
  { apply Qle_antisym; [by apply Hmax|by apply Htop]. }
  unfold slice_to. destruct (Z.leb_spec 0 top_k); [|lia].
  destruct (Z.to_nat top_k) as [|k] eqn:Hn; [lia|].
  cbn [take collect].
  destruct (Qle_bool lit.f0_10 (at_index sims i0)) eqn:Hreach.
  - split; [done|]. apply Qle_bool_iff. apply Qle_bool_iff in Hreach.
    by rewrite <- Heq.
  - assert (collect self sims (take k rest) = []) as ->.
    { rewrite collect_as_map, filter_none; [done|].
      intros y Hy. apply (subseteq_take k rest) in Hy.
      rewrite Forall_forall in Hrest. specialize (Hrest y Hy).
      unfold flip, score_le in Hrest. unfold reaches.
      destruct (Qle_bool lit.f0_10 (at_index sims y)) eqn:Hy'; [|done].
      apply Qle_bool_iff in Hy'.
      assert (Qle_bool lit.f0_10 (at_index sims i0) = true); [|congruence].
      apply Qle_bool_iff. by eapply Qle_trans. }
    destruct (Qle_bool lit.f0_10 (at_index sims m)) eqn:Hm'; [|done].
    apply Qle_bool_iff in Hm'.
    assert (Qle_bool lit.f0_10 (at_index sims i0) = true); [|congruence].
    apply Qle_bool_iff. by rewrite Heq.
Qed.

End retriever_more.

Section guidance.
Import py orchestrator.
Variable self : CyberOrchestrator.

Lemma foldl_lines mark items : ∀ init,
  foldl (λ out item, out +:+ mark +:+ item +:+ LF) init items
  = init +:+ join_lines mark items.
Proof.
  induction items as [|item items IH]; intros init; cbn [foldl join_lines foldr].
  - by rewrite string_app_nil_r.
  - rewrite IH. fold (join_lines mark items). by rewrite !string_app_assoc.
Qed.

(** X10: the layout of [_enrich_md].  An intent without guidance, or with a
    mapping without keys, contributes the empty string.  Otherwise the
    output is the context paragraph, then the best-practices block, then
    the common-mistakes block; a block whose list is missing or empty is
    left out together with its header, and a block holds one marked line
    per item in the order of the list. *)
Theorem enrich_md_layout intent :
  _enrich_md self intent =
    match guidance self !! intent with
    | None => ""
    | Some g =>
        match why g, best_practices g, common_mistakes g with
        | None, None, None => ""
        | _, _, _ =>
            LF +:+ LF +:+ "**Contexte :** " +:+ default "" (why g) +:+
            md_block (LF +:+ LF +:+ "**Bonnes pratiques :**" +:+ LF) "• "
              (default [] (best_practices g)) +:+
            md_block (LF +:+ "**Erreurs courantes :**" +:+ LF) "⚠️ "
              (default [] (common_mistakes g))
        end
    end.
Proof.
  unfold _enrich_md. destruct (guidance self !! intent) as [g|]; [|done].
  cbn [falsy mbind option_bind].
  assert (∀ w b m,
    (let output := LF +:+ LF +:+ "**Contexte :** " +:+ w in
     let output :=
       match b with
       | [] => output
       | _ => foldl (λ out bp, out +:+ "• " +:+ bp +:+ LF)
                (output +:+ LF +:+ LF +:+ "**Bonnes pratiques :**" +:+ LF) b
       end in
     match m with
     | [] => output
     | _ => foldl (λ out x, out +:+ "⚠️ " +:+ x +:+ LF)
              (output +:+ LF +:+ "**Erreurs courantes :**" +:+ LF) m
     end) =
    LF +:+ LF +:+ "**Contexte :** " +:+ w +:+
    md_block (LF +:+ LF +:+ "**Bonnes pratiques :**" +:+ LF) "• " b +:+
    md_block (LF +:+ "**Erreurs courantes :**" +:+ LF) "⚠️ " m) as Hlayout.
  { intros w b m. cbv zeta. unfold md_block.
    destruct b as [|b0 b], m as [|m0 m]; rewrite ?foldl_lines, ?string_app_assoc, ?string_app_nil_r;
      reflexivity. }
  destruct (why g), (best_practices g), (common_mistakes g);
    try reflexivity; apply Hlayout.
Qed.

End guidance.

Section checklists.
Import py orchestrator.

Lemma _generic_steps_other intent :
  intent ∉ ["password_security"; "mfa"; "vpn"; "updates"; "data_sensitivity";
            "incident_reporting"; "general"] →
  _generic_steps intent = _generic_steps "general".
Proof.
  intros Hnot. unfold _generic_steps. cbv zeta.
  rewrite (not_elem_of_list_to_map_1 _ intent); [|exact Hnot].
  reflexivity.
Qed.

Lemma _generic_steps_length intent : 3 ≤ length (_generic_steps intent) ≤ 4.
Proof.
  destruct (decide (intent ∈ ["password_security"; "mfa"; "vpn"; "updates";
                              "data_sensitivity"; "incident_reporting"; "general"]))
    as [Hin|Hnot].
  - rewrite !elem_of_cons, elem_of_nil in Hin.
    repeat (destruct Hin as [->|Hin]; [vm_compute; lia|]). done.
  - rewrite _generic_steps_other by done. vm_compute. lia.
Qed.

(** X9: every checklist of [_generic_steps] has three or four steps, and an
    intent without an entry of its own ("greeting", "phishing_incident",
    any unknown label) gets the checklist of "general". *)
Theorem generic_steps_fallback intent :
  3 ≤ length (_generic_steps intent) ≤ 4 ∧
  (intent ∉ ["password_security"; "mfa"; "vpn"; "updates"; "data_sensitivity";
             "incident_reporting"; "general"] →
   _generic_steps intent = _generic_steps "general" ∧
   _generic_steps intent =
     [ "Vérifiez toujours l'expéditeur des emails.";
       "Utilisez des mots de passe robustes et uniques.";
       "Activez la MFA partout où c'est possible.";
       "En cas de doute, contactez l'équipe sécurité." ]).
Proof.
  split; [apply _generic_steps_length|].
  intros Hnot. by rewrite _generic_steps_other.
Qed.

End checklists.

Section turns.
Import py orchestrator.

Variable ops : StrOps.
Variable self : CyberOrchestrator.

Lemma tip_transformed a w : transformed (faq_agent.tip a w).2 = transformed w.
Proof. unfold faq_agent.tip. by destruct (faq_agent.tips a). Qed.

Lemma answer_transformed a query w :
  transformed (faq_agent.answer ops a query w).2
  = transformed w ++ (if blank ops query then [] else [query]).
Proof.
  unfold faq_agent.answer. destruct (blank ops query).
  - cbn. by rewrite app_nil_r.
  - unfold bind, faq_agent.transform. by destruct (Qle_bool _ _).
Qed.

Lemma search_transformed a query k w :
  transformed (faq_agent.search ops a query k w).2
  = transformed w ++ (if blank ops query then [] else [query]).
Proof.
  unfold faq_agent.search. destruct (blank ops query); [|done].
  cbn. by rewrite app_nil_r.
Qed.

Ltac trace_call c lem :=
  let H := fresh "Htr" in
  pose proof lem as H; destruct c as [? ?]; cbn [fst snd] in H.

Ltac trace_retriever :=
  repeat match goal with
  | |- context [faq_agent.tip ?a ?w] =>
      trace_call (faq_agent.tip a w) (tip_transformed a w)
  | |- context [faq_agent.answer ?o ?a ?q ?w] =>
      trace_call (faq_agent.answer o a q w) (answer_transformed a q w)
  | |- context [faq_agent.search ?o ?a ?q ?k ?w] =>
      trace_call (faq_agent.search o a q k w) (search_transformed a q k w)
  end.

Ltac back_to_start :=
  repeat match goal with H : transformed _ = _ |- _ => rewrite H; clear H end.

(** X11: every call of [respond] appends exactly one row to
    [conversations] (user, text, composed message, intent of the
    response); a call that classifies its text appends exactly one
    "question_asked" row tagged with that intent to [metrics], a follow-up
    turn appends none; [incidents] is never written.  Rows already in the
    tables are kept as they are. *)
Theorem turn_logged text session uid w :
  let run := respond ops self text session uid w in
  let resp := run.1.1 in
  database.conversations (db run.2)
    = database.conversations (db w) ++ [turn uid text resp] ∧
  database.metrics (db run.2)
    = (if is_phishing_followup (session !! "pending_flow")
       then database.metrics (db w)
       else database.metrics (db w) ++ [question_asked resp]) ∧
  database.incidents (db run.2) = database.incidents (db w).
Proof. apply respond_logs. Qed.

(** X12: [respond] hands nothing but the user text to the vectorizer: twice
    on the default path (once in [answer], once in [search]), once on the
    phishing_incident path, and not at all for a blank text, for a
    greeting or while a follow-up is pending. *)
Theorem respond_vectorizer_calls text session uid w :
  transformed (respond ops self text session uid w).2
  = transformed w ++ replicate (vectorizer_calls ops text session) text.
Proof.
  unfold respond, vectorizer_calls. destruct (is_phishing_followup _).
  { unfold _handle_phishing_followup.
    destruct (contains "oui" _ || contains "identifiant" _ || contains "mot de passe" _);
      unfold bind; trace_retriever; cbn; back_to_start; by rewrite app_nil_r. }
  destruct (detect_intent ops text =? "greeting")%string.
  { unfold bind; trace_retriever; cbn; back_to_start. by rewrite app_nil_r. }
  destruct (detect_intent ops text =? "phishing_incident")%string.
  { unfold bind; trace_retriever; cbn; back_to_start.
    by destruct (blank ops text). }
  unfold bind. trace_retriever.
  match goal with p : (string * Q * faq_agent.Row)%type |- _ =>
    destruct p as [[ans score] meta] end.
  trace_retriever.
  destruct (negb _ && _); cbn; back_to_start;
    destruct (blank ops text); cbn; by rewrite <- ?app_assoc, ?app_nil_r.
Qed.

Ltac respond_branches text session :=
  unfold respond;
  destruct (is_phishing_followup (session !! "pending_flow")) eqn:Hpending;
  [ unfold _handle_phishing_followup;
    destruct (contains "oui" _ || contains "identifiant" _ || contains "mot de passe" _);
    unfold bind; destruct (faq_agent.tip _ _) as [drawn w1] eqn:Htip
  | destruct (detect_intent ops text =? "greeting")%string eqn:Hg;
    [ unfold bind; destruct (faq_agent.tip _ _) as [drawn w1] eqn:Htip
    | destruct (detect_intent ops text =? "phishing_incident")%string eqn:Hp;
      [ unfold bind;
        destruct (faq_agent.search _ _ _ _ _) as [found w1] eqn:Hsearch;
        destruct (faq_agent.tip _ _) as [drawn w2] eqn:Htip
      | unfold bind;
        destruct (faq_agent.answer _ _ _ _) as [[[ans score] meta] w1] eqn:Hanswer;
        destruct (faq_agent.search _ _ _ _ _) as [found w2] eqn:Hsearch;
        destruct (faq_agent.tip _ _) as [drawn w3] eqn:Htip;
        destruct (negb _ && _) eqn:Hclar ] ] ];
  unfold save_conversation, increment_metric, on_db, ret; cbn [fst snd].

(** X13: after any call the session awaits the phishing follow-up exactly
    when the response carries a follow-up question. *)
Theorem follow_up_iff_pending text session uid w :
  let run := respond ops self text session uid w in
  is_phishing_followup (run.1.2 !! "pending_flow")
  = negb (follow_up run.1.1 =? "")%string.
Proof.
  cbv zeta. respond_branches text session; cbn [fst snd follow_up];
    rewrite ?lookup_delete_eq, ?lookup_insert_eq, ?Hpending; reflexivity.
Qed.

(** X14: a phishing_incident turn followed by any second turn leaves the
    session as it was before, without its [pending_flow] key; a session
    that had no such key is back to exactly what it was. *)
Theorem phishing_round_trip text session uid w text2 uid2 w' :
  is_phishing_followup (session !! "pending_flow") = false →
  detect_intent ops text = "phishing_incident" →
  let session1 := (respond ops self text session uid w).1.2 in
  let session2 := (respond ops self text2 session1 uid2 w').1.2 in
  session2 = delete "pending_flow" session ∧
  (session !! "pending_flow" = None → session2 = session).
Proof.
  intros Hidle Hintent. cbv zeta.
  rewrite !(respond_session ops self), Hidle, Hintent.
  cbn [String.eqb Ascii.eqb Bool.eqb]. rewrite lookup_insert_eq.
  cbn [is_phishing_followup]. rewrite String.eqb_refl.
  rewrite delete_insert_eq. split; [done|]. apply delete_id.
Qed.

(** X16: the intent of a response is "phishing_followup" while a follow-up
    is pending and the classifier's label otherwise, hence always one of
    ten labels. *)
Theorem response_intent text session uid w :
  let resp := (respond ops self text session uid w).1.1 in
  intent resp =
    (if is_phishing_followup (session !! "pending_flow")
     then "phishing_followup" else detect_intent ops text) ∧
  intent resp ∈
    ["greeting"; "phishing_incident"; "password_security"; "mfa"; "vpn";
     "updates"; "data_sensitivity"; "incident_reporting"; "general";
     "phishing_followup"].
Proof.
  cbv zeta.
  assert (intent (respond ops self text session uid w).1.1 =
          if is_phishing_followup (session !! "pending_flow")
          then "phishing_followup" else detect_intent ops text) as Heq.
  { respond_branches text session; reflexivity. }
  split; [done|]. rewrite Heq. destruct (is_phishing_followup _).
  - rewrite !elem_of_cons. tauto.
  - pose proof (detect_intent_labels ops text) as Hin.
    rewrite !elem_of_cons in *. tauto.
Qed.

Lemma tip_in_pool a w :
  faq_agent.tips a ≠ [] → (faq_agent.tip a w).1 ∈ faq_agent.tips a.
Proof.
  unfold faq_agent.tip. destruct (faq_agent.tips a) as [|t rest]; [done|].
  intros _. unfold random_choice. cbn [fst].
  destruct (nth_lookup_or_length (t :: rest)
              (entropy w 0 `mod` S (length rest)) t) as [H|H].
  - by eapply list_elem_of_lookup_2.
  - pose proof (Nat.mod_upper_bound (entropy w 0) (S (length rest))).
    simpl in H. lia.
Qed.

(** X18: the tip of every response is an element of the tip pool, or the
    fixed default tip when the pool is empty. *)
Theorem response_tip text session uid w :
  let drawn := tip (respond ops self text session uid w).1.1 in
  match faq_agent.tips (faq self) with
  | [] => drawn = "Astuce: Activez l'authentification multifacteur et ne réutilisez pas vos mots de passe."
  | _ :: _ => drawn ∈ faq_agent.tips (faq self)
  end.
Proof.
  cbv zeta.
  assert (∃ w0, tip (respond ops self text session uid w).1.1
                = (faq_agent.tip (faq self) w0).1) as [w0 ->].
  { respond_branches text session; eexists; rewrite Htip; reflexivity. }
  destruct (faq_agent.tips (faq self)) as [|t rest] eqn:Htips.
  - unfold faq_agent.tip. by rewrite Htips.
  - rewrite <- Htips. apply tip_in_pool. by rewrite Htips.
Qed.

(** X15: on the two retrieval paths of [respond] (no follow-up pending, no
    greeting, no clarification) there are at most three suggestions, in
    non-increasing order of score; the score of each is the similarity to
    the text of an entry of the knowledge base and is at least 0.10; and
    on a knowledge base whose entries carry the same keys its label is a
    string, the "question" field of that entry. *)
Theorem retrieval_suggestions text session uid w :
  let intent := detect_intent ops text in
  let score := (faq_agent.answer ops (faq self) text w).1.1.2 in
  is_phishing_followup (session !! "pending_flow") = false →
  (intent =? "greeting")%string = false →
  negb (Qle_bool lit.f0_15 score) &&
    ((intent =? "general")%string || (intent =? "incident_reporting")%string) = false →
  let sugg := suggestions (respond ops self text session uid w).1.1 in
  length sugg ≤ 3 ∧
  StronglySorted (λ s1 s2, (s2.2 <= s1.2)%Q) sugg ∧
  Forall (λ s, (lit.f0_10 <= s.2)%Q ∧
               ∃ i row, faq_agent.faq (faq self) !! i = Some row ∧
                        s.2 = faq_agent.cosine (faq self) text i ∧
                        (uniform_keys (faq self) →
                         s.1 = LStr (faq_agent.get row "question"))) sugg.
Proof.
  cbv zeta. intros Hidle Hg Hnoclar.
  assert (suggestions (respond ops self text session uid w).1.1
          = as_suggestions (faq_agent.search ops (faq self) text 3 w).1) as ->.
  { unfold respond. rewrite Hidle, Hg.
    destruct (detect_intent ops text =? "phishing_incident")%string.
    - unfold bind. destruct (faq_agent.search _ _ _ _ _) as [found w1].
      by destruct (faq_agent.tip _ _).
    - unfold bind.
      destruct (faq_agent.answer _ _ _ _) as [[[ans score] meta] w1].
      cbn [fst snd] in Hnoclar. rewrite Hnoclar.
      pose proof (search_world ops (faq self) text 3 w1 w) as Hw1.
      destruct (faq_agent.search _ _ _ _ w1) as [found w2].
      cbn [fst] in Hw1. rewrite <- Hw1.
      by destruct (faq_agent.tip _ _). }
  rewrite search_result. destruct (blank ops text).
  { repeat split; cbn; try constructor. lia. }
  cbv zeta. set (sims := faq_agent.cosine_similarity (faq self) text).
  unfold as_suggestions. repeat split.
  - rewrite length_map, collect_length.
    etrans; [apply List.filter_length_le|]. by apply (slice_to_length 3).
  - apply (StronglySorted_fmap _ (λ r1 r2, (r2.2 <= r1.2)%Q)).
    + by intros [q1 s1] [q2 s2].
    + apply collect_descending, slice_to_descending.
  - apply Forall_fmap.
    eapply Forall_impl; [apply (collect_sound (faq self) text 3)|].
    intros [row s] [Hfloor (i & Hrow & Hs)]. cbn [fst snd] in *.
    split; [done|]. by exists i, row.
Qed.

(** X17: a greeting and a clarification carry no step; every other response
    carries three or four. *)
Theorem response_steps text session uid w :
  let intent := detect_intent ops text in
  let score := (faq_agent.answer ops (faq self) text w).1.1.2 in
  let resp := (respond ops self text session uid w).1.1 in
  if negb (is_phishing_followup (session !! "pending_flow")) &&
     ((intent =? "greeting")%string ||
      negb (intent =? "phishing_incident")%string &&
      negb (Qle_bool lit.f0_15 score) &&
      ((intent =? "general")%string || (intent =? "incident_reporting")%string))
  then steps resp = []
  else 3 ≤ length (steps resp) ≤ 4.
Proof.
  cbv zeta. unfold respond.
  destruct (is_phishing_followup (session !! "pending_flow")).
  { cbn [negb andb]. unfold _handle_phishing_followup.
    destruct (contains "oui" _ || contains "identifiant" _ || contains "mot de passe" _);
      unfold bind; destruct (faq_agent.tip _ _); cbn; lia. }
  cbn [negb andb].
  destruct (detect_intent ops text =? "greeting")%string.
  { unfold bind. by destruct (faq_agent.tip _ _). }
  cbn [orb].
  destruct (detect_intent ops text =? "phishing_incident")%string.
  { cbn [negb andb]. unfold bind. destruct (faq_agent.search _ _ _ _ _).
    destruct (faq_agent.tip _ _). cbn. lia. }
  cbn [negb andb]. unfold bind.
  destruct (faq_agent.answer _ _ _ _) as [[[ans score] meta] w1].
  cbn [fst snd]. destruct (faq_agent.search _ _ _ _ _).
  destruct (faq_agent.tip _ _).
  destruct (negb (Qle_bool lit.f0_15 score) && _); [done|].
  cbn. apply _generic_steps_length.
Qed.

(** X19: with no follow-up pending, a blank text classified "general" or
    "incident_reporting" is answered by the clarification (no step, four
    suggestions, session untouched) without any call of the vectorizer:
    the score 0.0 that [answer] reports for a blank query is below 0.15. *)
Theorem blank_text_clarified text session uid w :
  is_phishing_followup (session !! "pending_flow") = false →
  blank ops text = true →
  detect_intent ops text = "general" ∨ detect_intent ops text = "incident_reporting" →
  let run := respond ops self text session uid w in
  message run.1.1 =
    "Je peux vous aider sur : phishing, mots de passe, MFA, VPN, mises à jour, données sensibles, " +:+
    "signalement d'incident. Pouvez-vous préciser votre problème ?" ∧
  steps run.1.1 = [] ∧
  length (suggestions run.1.1) = 4 ∧
  intent run.1.1 = detect_intent ops text ∧
  run.1.2 = session ∧
  transformed run.2 = transformed w.
Proof.
  intros Hidle Hblank Hintent. cbv zeta. unfold respond. rewrite Hidle.
  assert ((detect_intent ops text =? "greeting")%string = false) as ->.
  { by destruct Hintent as [-> | ->]. }
  assert ((detect_intent ops text =? "phishing_incident")%string = false) as ->.
  { by destruct Hintent as [-> | ->]. }
  unfold bind, faq_agent.answer, faq_agent.search. rewrite Hblank.
  unfold ret. cbn [fst snd].
  pose proof (tip_transformed (faq self) w) as Htip.
  destruct (faq_agent.tip (faq self) w) as [drawn w1]. cbn [snd] in Htip.
  assert (negb (Qle_bool lit.f0_15 lit.f0_0) &&
          ((detect_intent ops text =? "general")%string
           || (detect_intent ops text =? "incident_reporting")%string) = true) as ->.
  { by destruct Hintent as [-> | ->]. }
  by repeat split.
Qed.

End turns.

Section metrics.
Import database.

Lemma foldl_insert_unique (k : string) (v : nat) kvs : ∀ m0 : gmap string nat,
  (∀ name intent count, (name, intent, count) ∈ kvs →
     summary_key name intent = k → count = v) →
  foldl (λ result '(name, intent, count), <[ summary_key name intent := count ]> result)
    m0 kvs !! k
  = if decide (k ∈ (λ '(name, intent, _), summary_key name intent) <$> kvs)
    then Some v else m0 !! k.
Proof.
  induction kvs as [|[[name intent] count] kvs IH]; intros m0 Hval.
  - cbn. rewrite decide_False; [done|]. apply not_elem_of_nil.
  - cbn [foldl]. rewrite IH.
    2: { intros n i c Hin. apply Hval. by apply list_elem_of_further. }
    rewrite fmap_cons.
    destruct (decide (k ∈ _ <$> kvs)) as [Hin|Hnin].
    + rewrite decide_True; [done|]. by apply list_elem_of_further.
    + destruct (decide (summary_key name intent = k)) as [Hk|Hk].
      * rewrite decide_True by (rewrite Hk; apply list_elem_of_here).
        rewrite <- Hk, lookup_insert_eq. f_equal.
        apply (Hval name intent); [apply list_elem_of_here|done].
      * rewrite decide_False.
        -- by rewrite lookup_insert_ne.
        -- intros [?|?]%elem_of_cons; congruence.
Qed.

Lemma count_group_pos g rows :
  0 < count_group g rows ↔ g ∈ metric_group <$> rows.
Proof.
  unfold count_group. rewrite list_elem_of_fmap. split.
  - intros Hpos. destruct (filter _ rows) as [|r l] eqn:Hf; [simpl in Hpos; lia|].
    assert (r ∈ filter (λ r, metric_group r = g) rows) as Hr
      by (rewrite Hf; apply list_elem_of_here).
    apply list_elem_of_filter in Hr as [Hg Hr]. by exists r.
  - intros (r & -> & Hr).
    assert (r ∈ filter (λ r', metric_group r' = metric_group r) rows) as Hin
      by by apply list_elem_of_filter.
    destruct (filter _ rows); [by apply elem_of_nil in Hin|simpl; lia].
Qed.

Lemma summary_lookup db name intent :
  (∀ r, r ∈ metrics db →
     summary_key (metric_name r) (metric_intent r) = summary_key name intent →
     metric_group r = (name, intent)) →
  get_metrics_summary db !! summary_key name intent
  = if decide (count_group (name, intent) (metrics db) = 0) then None
    else Some (count_group (name, intent) (metrics db)).
Proof.
  intros Hfree. unfold get_metrics_summary.
  assert (∀ n i c, (n, i, c) ∈ grouped (metrics db) →
            (n, i) ∈ metric_group <$> metrics db ∧
            c = count_group (n, i) (metrics db)) as Hgrouped.
  { intros n i c Hin. unfold grouped in Hin.
    apply list_elem_of_fmap in Hin as ([n' i'] & Heq & Hin).
    cbn [fst snd] in Heq. simplify_eq.
    rewrite elem_of_remove_dups in Hin. done. }
  rewrite (foldl_insert_unique _ (count_group (name, intent) (metrics db))).
  2: { intros n i c Hin Hkey. apply Hgrouped in Hin as [Hin ->].
       apply list_elem_of_fmap in Hin as (r & Hr & Hin).
       unfold metric_group in Hr. simplify_eq.
       by rewrite <- (Hfree r Hin Hkey). }
  rewrite lookup_empty.
  destruct (decide (count_group (name, intent) (metrics db) = 0)) as [Hz|Hnz].
  - rewrite decide_False; [done|].
    intros Hin. apply list_elem_of_fmap in Hin as ([[n i] c] & Hkey & Hin).
    apply Hgrouped in Hin as [Hin _].
    apply list_elem_of_fmap in Hin as (r & Hr & Hin).
    unfold metric_group in Hr. simplify_eq.
    pose proof (Hfree r Hin (eq_sym Hkey)) as Hg.
    assert (0 < count_group (name, intent) (metrics db)); [|lia].
    apply count_group_pos. apply list_elem_of_fmap. by exists r.
  - rewrite decide_True; [done|].
    apply list_elem_of_fmap. exists (name, intent, count_group (name, intent) (metrics db)).
    split; [done|]. unfold grouped. apply list_elem_of_fmap.
    exists (name, intent). split; [done|].
    apply elem_of_remove_dups, count_group_pos. lia.
Qed.

(** X20: [get_metrics_summary] maps the key of a (metric_name, intent) pair
    to the number of [metrics] rows of that pair, and holds no such key
    when there is no such row, provided no row of another pair yields the
    same key ("a_b" with no intent and "a" with intent "b" would).  Under
    that proviso the order in which SQL lists the groups plays no part. *)
Theorem metrics_summary_counts db name intent :
  (∀ r, r ∈ metrics db →
     summary_key (metric_name r) (metric_intent r) = summary_key name intent →
     metric_group r = (name, intent)) →
  get_metrics_summary db !! summary_key name intent
  = if decide (count_group (name, intent) (metrics db) = 0) then None
    else Some (count_group (name, intent) (metrics db)).
Proof. apply summary_lookup. Qed.

Lemma count_group_snoc g rows r :
  count_group g (rows ++ [r])
  = count_group g rows + (if decide (metric_group r = g) then 1 else 0).
Proof.
  unfold count_group. rewrite filter_app, length_app. f_equal.
  rewrite filter_cons, filter_nil. by destruct (decide _).
Qed.

Lemma question_key_inj intent label :
  label ≠ "" →
  summary_key "question_asked" intent = summary_key "question_asked" label →
  intent = label.
Proof.
  intros Hlabel. unfold summary_key.
  destruct (String.eqb_spec label "") as [|_]; [done|].
  destruct (String.eqb_spec intent "") as [->|_]; intros Heq.
  - rewrite <- (string_app_nil_r "question_asked") in Heq at 1.
    apply (inj (String.app "question_asked")) in Heq. discriminate Heq.
  - apply (inj (String.app "question_asked")) in Heq.
    by apply (inj (String.app "_")) in Heq.
Qed.

Section dashboard.
Import py orchestrator.
Variable ops : StrOps.
Variable self : CyberOrchestrator.

(** X21: on a database whose metrics are all named "question_asked", which
    [respond] keeps so, the summary entry "question_asked_<label>" after a
    call is the number of rows tagged <label> before it, plus one when the
    call classified its text as <label>; a follow-up turn changes no
    entry. *)
Theorem respond_metrics_summary text session uid w label :
  Forall (λ r, metric_name r = "question_asked") (metrics (db w)) →
  label ≠ "" →
  let run := respond ops self text session uid w in
  let before := count_group ("question_asked", label) (metrics (db w)) in
  let counted :=
    if is_phishing_followup (session !! "pending_flow") then before
    else if decide (intent run.1.1 = label) then S before else before in
  Forall (λ r, metric_name r = "question_asked") (metrics (db run.2)) ∧
  get_metrics_summary (db run.2) !! ("question_asked_" +:+ label)
  = if decide (counted = 0) then None else Some counted.
Proof.
  intros Hnamed Hlabel. cbv zeta.
  destruct (respond_logs ops self text session uid w) as (_ & Hmetrics & _).
  cbv zeta in Hmetrics.
  assert (Forall (λ r, metric_name r = "question_asked")
            (metrics (db (respond ops self text session uid w).2))) as Hnamed'.
  { rewrite Hmetrics. destruct (is_phishing_followup _); [done|].
    apply Forall_app. split; [done|]. by repeat constructor. }
  split; [done|].
  change ("question_asked_" +:+ label) with ("question_asked" +:+ "_" +:+ label).
  assert ("question_asked" +:+ "_" +:+ label = summary_key "question_asked" label)
    as ->.
  { unfold summary_key. by destruct (String.eqb_spec label "") as [|_]. }
  rewrite summary_lookup.
  2: { intros r Hr Hkey. rewrite Forall_forall in Hnamed'.
       specialize (Hnamed' r Hr). unfold metric_group. rewrite Hnamed' in *.
       f_equal. by apply question_key_inj. }
  rewrite Hmetrics. destruct (is_phishing_followup _); [done|].
  rewrite count_group_snoc. unfold metric_group, question_asked. cbn.
  repeat case_decide; simplify_eq; try done; try lia; f_equal; lia.
Qed.

End dashboard.

End metrics.

(** ** The further properties on the sample knowledge base *)

Section more_examples.
Import py orchestrator.

Lemma greeting_shadows_keywords_witness :
  detect_intent ascii_ops "c'est quoi le phishing ?" = "greeting".
Proof.
  apply (greeting_shadows_keywords ascii_ops "c'est quoi le phishing ?").
  left. vm_compute. reflexivity.
Defined.

Lemma sample_keys_uniform : uniform_keys demo.agent.
Proof. repeat constructor. Qed.

Lemma search_results_genuine_witness :
  ∃ idxs,
    NoDup idxs ∧
    Forall (λ i, i < length (faq_agent.faq demo.agent)) idxs ∧
    (faq_agent.search ascii_ops demo.agent "vpn" 3 demo.w0).1
      = map (λ i, (nth i (faq_agent.faq demo.agent) ∅,
                   faq_agent.cosine demo.agent "vpn" i)) idxs.
Proof.
  destruct (search_results_genuine ascii_ops demo.agent "vpn" 3 demo.w0)
    as (idxs & Hnodup & Hrange & _ & Hrows).
  exists idxs. repeat split; [done|done|]. apply Hrows, sample_keys_uniform.
Defined.

Lemma answer_best_match_witness :
  let found := (faq_agent.answer ascii_ops demo.agent "vpn" demo.w0).1 in
  let score := found.1.2 in
  (∀ i, i < length (faq_agent.faq demo.agent) →
        (faq_agent.cosine demo.agent "vpn" i <= score)%Q) ∧
  ∃ best,
    best < length (faq_agent.faq demo.agent) ∧
    score = faq_agent.cosine demo.agent "vpn" best ∧
    (∀ j, j < best → (faq_agent.cosine demo.agent "vpn" j < score)%Q) ∧
    if Qle_bool (faq_agent.min_similarity demo.agent) score
    then uniform_keys demo.agent →
         faq_agent.faq demo.agent !! best = Some found.2 ∧
         found.1.1 = faq_agent.get found.2 "answer"
    else found.2 = ∅ ∧ found.1.1 = faq_agent.fallback.
Proof.
  apply (answer_best_match ascii_ops demo.agent "vpn" demo.w0). reflexivity.
Defined.

Lemma search_top_k_prefix_witness :
  let results := (faq_agent.search ascii_ops demo.agent "vpn" 1 demo.w0).1 in
  results = take 1 (faq_agent.search ascii_ops demo.agent "vpn" 3 demo.w0).1 ∧
  length results =
    if blank ascii_ops "vpn" then 0
    else 1 `min` length (List.filter (Qle_bool lit.f0_10)
                           (faq_agent.cosine_similarity demo.agent "vpn")).
Proof.
  apply (search_top_k_prefix ascii_ops demo.agent "vpn" 1 3 demo.w0). lia.
Defined.

Lemma search_head_is_best_witness :
  let score := (faq_agent.answer ascii_ops demo.agent "vpn" demo.w0).1.1.2 in
  match (faq_agent.search ascii_ops demo.agent "vpn" 3 demo.w0).1 with
  | [] => Qle_bool lit.f0_10 score = false
  | r :: _ => (r.2 == score)%Q ∧ Qle_bool lit.f0_10 score = true
  end.
Proof.
  apply (search_head_is_best ascii_ops demo.agent "vpn" 3 demo.w0);
    [reflexivity | lia].
Defined.

Lemma generic_steps_fallback_witness :
  _generic_steps "phishing_followup" = _generic_steps "general".
Proof.
  apply (proj2 (generic_steps_fallback "phishing_followup")).
  apply (bool_decide_unpack _). vm_compute. exact I.
Defined.

Lemma phishing_round_trip_witness :
  let session1 := (respond ascii_ops demo.bot "j'ai recu un email suspect"
                     demo.idle "u1" demo.w0).1.2 in
  let session2 := (respond ascii_ops demo.bot "non" session1 "u1" demo.w0).1.2 in
  session2 = delete "pending_flow" demo.idle ∧
  (demo.idle !! "pending_flow" = None → session2 = demo.idle).
Proof.
  apply (phishing_round_trip ascii_ops demo.bot "j'ai recu un email suspect"
           demo.idle "u1" demo.w0 "non" "u1" demo.w0); vm_compute; reflexivity.
Defined.

Lemma retrieval_suggestions_witness :
  let sugg := suggestions (respond ascii_ops demo.bot "vpn" demo.idle "u1" demo.w0).1.1 in
  length sugg ≤ 3 ∧
  StronglySorted (λ s1 s2, (s2.2 <= s1.2)%Q) sugg ∧
  Forall (λ s, (lit.f0_10 <= s.2)%Q ∧
               ∃ i row, faq_agent.faq (faq demo.bot) !! i = Some row ∧
                        s.2 = faq_agent.cosine (faq demo.bot) "vpn" i ∧
                        (uniform_keys (faq demo.bot) →
                         s.1 = LStr (faq_agent.get row "question"))) sugg.
Proof.
  apply (retrieval_suggestions ascii_ops demo.bot "vpn" demo.idle "u1" demo.w0);
    vm_compute; reflexivity.
Defined.

Lemma blank_text_clarified_witness :
  let run := respond ascii_ops demo.bot "  " demo.idle "u1" demo.w0 in
  message run.1.1 =
    "Je peux vous aider sur : phishing, mots de passe, MFA, VPN, mises à jour, données sensibles, " +:+
    "signalement d'incident. Pouvez-vous préciser votre problème ?" ∧
  steps run.1.1 = [] ∧
  length (suggestions run.1.1) = 4 ∧
  intent run.1.1 = detect_intent ascii_ops "  " ∧
  run.1.2 = demo.idle ∧
  transformed run.2 = transformed demo.w0.
Proof.
  apply (blank_text_clarified ascii_ops demo.bot "  " demo.idle "u1" demo.w0);
    [vm_compute; reflexivity | vm_compute; reflexivity | left; vm_compute; reflexivity].
Defined.

Lemma metrics_summary_counts_witness :
  database.get_metrics_summary demo.logged !! "question_asked_vpn" = Some 2.
Proof.
  apply (metrics_summary_counts demo.logged "question_asked" "vpn").
  intros r Hr Hkey. unfold demo.logged in Hr. cbn in Hr.
  rewrite !elem_of_cons, elem_of_nil in Hr.
  destruct Hr as [-> | [-> | [-> | []]]]; vm_compute in Hkey |- *;
    first [reflexivity | discriminate Hkey].
Defined.

Lemma respond_metrics_summary_witness :
  let run := respond ascii_ops demo.bot "vpn" demo.idle "u1" demo.w0 in
  Forall (λ r, database.metric_name r = "question_asked")
    (database.metrics (db run.2)) ∧
  database.get_metrics_summary (db run.2) !! "question_asked_vpn" = Some 1.
Proof.
  apply (respond_metrics_summary ascii_ops demo.bot "vpn" demo.idle "u1"
           demo.w0 "vpn"); [constructor | discriminate].
Defined.

End more_examples.
